(** * hal-net: frame transports over UDP and WebSocket

    A shallow embedding of [oc::hal::net::UdpTransport] (POSIX branch of
    UdpTransport.cpp) and [oc::hal::net::WebSocketTransport]
    (WebSocketTransport.cpp), followed by the properties of the two
    channels: idempotence of [init], the non-blocking polling of the
    datagram channel, and the connection state machine, exponential
    backoff and bounded pending buffer of the WebSocket channel.

    Conventions.
    - [uint32_t] values are integers in [Z]; every arithmetic operation the
      source performs on them is followed by [u32], its reduction modulo
      2^32.
    - A frame is the byte sequence [data, data + length).
    - Calls that leave the transport (system calls, the Emscripten
      WebSocket API, the receive callback) are recorded, in program order,
      in a trace returned next to the new state.  Values that come back
      from the outside (a file descriptor, a WebSocket handle, the clock)
      are arguments of the operation that reads them.
    - Log statements have no effect on the transport and are left out. *)

From Stdlib Require Import ZArith List Bool Lia.
From Stdlib Require Import Init.Byte.
From stdpp Require Import gmap strings list.
Import ListNotations.

Local Open Scope Z_scope.

(* ===================================================================== *)
(** * Shared vocabulary                                                   *)
(* ===================================================================== *)

(** One frame: the bytes of [const uint8_t* data, size_t length]. *)
Definition Frame : Type := list byte.

(** Reduction of an unsigned 32-bit result. *)
Definition u32 (z : Z) : Z := z mod 2 ^ 32.

(** [oc::ErrorCode], the two codes the transports return. *)
Inductive ErrorCode : Type :=
| INVALID_STATE
| HARDWARE_INIT_FAILED.

(** [oc::Result<void>]. *)
Inductive Result : Type :=
| ok
| err (e : ErrorCode).

(** A [ReceiveCallback] is a [std::function]; it is identified by a tag, and
    the empty function is [None]. *)
Definition ReceiveCallback : Type := option nat.

(* ===================================================================== *)
(** * WebSocketTransport                                                  *)
(* ===================================================================== *)

Module WebSocket.

(** [struct WebSocketConfig]. *)
Record WebSocketConfig : Type := {
  url : string;
  autoReconnect : bool;
  reconnectDelayMs : Z;
  reconnectMaxDelayMs : Z;
  maxPendingMessages : Z
}.

(** The default member initialisers of [WebSocketConfig]. *)
Definition default_config : WebSocketConfig := {|
  url := "ws://127.0.0.1:9002";
  autoReconnect := true;
  reconnectDelayMs := 1000;
  reconnectMaxDelayMs := 30000;
  maxPendingMessages := 100
|}.

(** [enum class State]. *)
Inductive State : Type :=
| Disconnected
| Connecting
| Connected.

#[global] Instance State_eq_dec : EqDecision State.
Proof. solve_decision. Defined.

(** The data members of [class WebSocketTransport]. *)
Record WebSocketTransport : Type := {
  config_ : WebSocketConfig;
  socket_ : Z;
  state_ : State;
  onReceive_ : ReceiveCallback;
  pendingMessages_ : list Frame;
  lastAttemptMs_ : Z;
  currentDelayMs_ : Z;
  reconnectAttempts_ : Z
}.

(** Calls made by the transport, as they appear in the trace. *)
Inductive Call : Type :=
| websocket_is_supported
| websocket_new (u : string)
| websocket_delete (sock : Z)
| websocket_close (sock : Z)
| websocket_set_callbacks (sock : Z)
| websocket_send_binary (sock : Z) (data : Frame)
| receive_callback (cb : nat) (data : Frame).

(** Assignments to single members. *)
Definition set_socket (v : Z) (t : WebSocketTransport) : WebSocketTransport :=
  {| config_ := config_ t; socket_ := v; state_ := state_ t;
     onReceive_ := onReceive_ t; pendingMessages_ := pendingMessages_ t;
     lastAttemptMs_ := lastAttemptMs_ t; currentDelayMs_ := currentDelayMs_ t;
     reconnectAttempts_ := reconnectAttempts_ t |}.

Definition set_state (v : State) (t : WebSocketTransport) : WebSocketTransport :=
  {| config_ := config_ t; socket_ := socket_ t; state_ := v;
     onReceive_ := onReceive_ t; pendingMessages_ := pendingMessages_ t;
     lastAttemptMs_ := lastAttemptMs_ t; currentDelayMs_ := currentDelayMs_ t;
     reconnectAttempts_ := reconnectAttempts_ t |}.

Definition set_onReceive (v : ReceiveCallback) (t : WebSocketTransport)
  : WebSocketTransport :=
  {| config_ := config_ t; socket_ := socket_ t; state_ := state_ t;
     onReceive_ := v; pendingMessages_ := pendingMessages_ t;
     lastAttemptMs_ := lastAttemptMs_ t; currentDelayMs_ := currentDelayMs_ t;
     reconnectAttempts_ := reconnectAttempts_ t |}.

Definition set_pendingMessages (v : list Frame) (t : WebSocketTransport)
  : WebSocketTransport :=
  {| config_ := config_ t; socket_ := socket_ t; state_ := state_ t;
     onReceive_ := onReceive_ t; pendingMessages_ := v;
     lastAttemptMs_ := lastAttemptMs_ t; currentDelayMs_ := currentDelayMs_ t;
     reconnectAttempts_ := reconnectAttempts_ t |}.

Definition set_lastAttemptMs (v : Z) (t : WebSocketTransport) : WebSocketTransport :=
  {| config_ := config_ t; socket_ := socket_ t; state_ := state_ t;
     onReceive_ := onReceive_ t; pendingMessages_ := pendingMessages_ t;
     lastAttemptMs_ := v; currentDelayMs_ := currentDelayMs_ t;
     reconnectAttempts_ := reconnectAttempts_ t |}.

Definition set_currentDelayMs (v : Z) (t : WebSocketTransport) : WebSocketTransport :=
  {| config_ := config_ t; socket_ := socket_ t; state_ := state_ t;
     onReceive_ := onReceive_ t; pendingMessages_ := pendingMessages_ t;
     lastAttemptMs_ := lastAttemptMs_ t; currentDelayMs_ := v;
     reconnectAttempts_ := reconnectAttempts_ t |}.

Definition set_reconnectAttempts (v : Z) (t : WebSocketTransport)
  : WebSocketTransport :=
  {| config_ := config_ t; socket_ := socket_ t; state_ := state_ t;
     onReceive_ := onReceive_ t; pendingMessages_ := pendingMessages_ t;
     lastAttemptMs_ := lastAttemptMs_ t; currentDelayMs_ := currentDelayMs_ t;
     reconnectAttempts_ := v |}.

(** [WebSocketTransport::WebSocketTransport(const WebSocketConfig&)], with
    the default member initialisers of the class. *)
Definition new (config : WebSocketConfig) : WebSocketTransport := {|
  config_ := config;
  socket_ := 0;
  state_ := Disconnected;
  onReceive_ := None;
  pendingMessages_ := [];
  lastAttemptMs_ := 0;
  currentDelayMs_ := reconnectDelayMs config;
  reconnectAttempts_ := 0
|}.

(** [WebSocketTransport::~WebSocketTransport]. *)
Definition destroy (t : WebSocketTransport) : WebSocketTransport * list Call :=
  if 0 <? socket_ t
  then (set_socket 0 t, [websocket_close (socket_ t); websocket_delete (socket_ t)])
  else (t, []).

(** [WebSocketTransport::scheduleReconnect]; [now] is the value read from
    [oc::time::millis()]. *)
Definition scheduleReconnect (now : Z) (t : WebSocketTransport) : WebSocketTransport :=
  if negb (autoReconnect (config_ t)) then t
  else
    let t1 := set_currentDelayMs
                (Z.min (u32 (currentDelayMs_ t * 2))
                       (reconnectMaxDelayMs (config_ t))) t in
    let t2 := set_lastAttemptMs now t1 in
    set_reconnectAttempts (u32 (reconnectAttempts_ t2 + 1)) t2.

(** [WebSocketTransport::connect]; [h] is the handle returned by
    [emscripten_websocket_new], [now] the clock read by [scheduleReconnect]
    when the handle is not positive. *)
Definition connect (h now : Z) (t : WebSocketTransport)
  : WebSocketTransport * list Call :=
  let '(t1, tr1) :=
    if 0 <? socket_ t
    then (set_socket 0 t, [websocket_delete (socket_ t)])
    else (t, []) in
  let t2 := set_socket h t1 in
  let tr2 := tr1 ++ [websocket_new (url (config_ t))] in
  if h <=? 0 then (scheduleReconnect now t2, tr2)
  else (set_state Connecting t2, tr2 ++ [websocket_set_callbacks h]).

(** [WebSocketTransport::init]; [supported] is the answer of
    [emscripten_websocket_is_supported]. *)
Definition init (supported : bool) (h now : Z) (t : WebSocketTransport)
  : WebSocketTransport * Result * list Call :=
  if negb supported then (t, err INVALID_STATE, [websocket_is_supported])
  else
    let '(t1, tr) := connect h now t in
    (t1, ok, websocket_is_supported :: tr).

(** [WebSocketTransport::update]; [now] is read by [update] itself, [h] and
    [now2] are handed to [connect]. *)
Definition update (now h now2 : Z) (t : WebSocketTransport)
  : WebSocketTransport * list Call :=
  if bool_decide (state_ t = Disconnected) && autoReconnect (config_ t) then
    if u32 (now - lastAttemptMs_ t) >=? currentDelayMs_ t then
      let '(t1, tr) := connect h now2 t in
      (set_lastAttemptMs now t1, tr)
    else (t, [])
  else (t, []).

(** [WebSocketTransport::send].  The result of
    [emscripten_websocket_send_binary] is only logged.  (The target is
    wasm32, where [size_t] and [uint32_t] coincide, so the cast of [length]
    keeps the frame whole.) *)
Definition send (data : Frame) (t : WebSocketTransport)
  : WebSocketTransport * list Call :=
  if bool_decide (state_ t = Connected) then
    (t, [websocket_send_binary (socket_ t) data])
  else if (maxPendingMessages (config_ t) =? 0)
          || (Z.of_nat (length (pendingMessages_ t))
              <? maxPendingMessages (config_ t)) then
    (set_pendingMessages (pendingMessages_ t ++ [data]) t, [])
  else
    (set_pendingMessages (tail (pendingMessages_ t) ++ [data]) t, []).

(** [WebSocketTransport::setOnReceive]. *)
Definition setOnReceive (cb : ReceiveCallback) (t : WebSocketTransport)
  : WebSocketTransport :=
  set_onReceive cb t.

(** [WebSocketTransport::isReady]. *)
Definition isReady (t : WebSocketTransport) : bool :=
  bool_decide (state_ t = Connected).

(** [WebSocketTransport::flushPendingMessages]. *)
Definition flushPendingMessages (t : WebSocketTransport)
  : WebSocketTransport * list Call :=
  match pendingMessages_ t with
  | [] => (t, [])
  | _ :: _ =>
      (set_pendingMessages [] t,
       map (websocket_send_binary (socket_ t)) (pendingMessages_ t))
  end.

(** [WebSocketTransport::onOpen]. *)
Definition onOpen (t : WebSocketTransport) : WebSocketTransport * list Call :=
  let t1 := set_state Connected t in
  let t2 := set_currentDelayMs (reconnectDelayMs (config_ t1)) t1 in
  let t3 := set_reconnectAttempts 0 t2 in
  flushPendingMessages t3.

(** [WebSocketTransport::onMessage]. *)
Definition onMessage (isText : bool) (data : Frame) (t : WebSocketTransport)
  : WebSocketTransport * list Call :=
  match negb isText, onReceive_ t with
  | true, Some cb => (t, [receive_callback cb data])
  | _, _ => (t, [])
  end.

(** [WebSocketTransport::onClose]; [now] is the clock read by
    [scheduleReconnect]. *)
Definition onClose (now : Z) (t : WebSocketTransport) : WebSocketTransport :=
  scheduleReconnect now (set_state Disconnected t).

(** [WebSocketTransport::onError]. *)
Definition onError (t : WebSocketTransport) : WebSocketTransport := t.

(** What can happen to a transport after its construction: a call of its
    public interface, or an event of the browser. *)
Inductive Event : Type :=
| EInit (supported : bool) (h now : Z)
| EUpdate (now h now2 : Z)
| ESend (data : Frame)
| ESetOnReceive (cb : ReceiveCallback)
| EOpen
| EMessage (isText : bool) (data : Frame)
| EClose (now : Z)
| EError.

Definition step (e : Event) (t : WebSocketTransport)
  : WebSocketTransport * list Call :=
  match e with
  | EInit supported h now =>
      let '(t1, _, tr) := init supported h now t in (t1, tr)
  | EUpdate now h now2 => update now h now2 t
  | ESend data => send data t
  | ESetOnReceive cb => (setOnReceive cb t, [])
  | EOpen => onOpen t
  | EMessage isText data => onMessage isText data t
  | EClose now => (onClose now t, [])
  | EError => (onError t, [])
  end.

(** A sequence of events, first to last, with the concatenated trace. *)
Fixpoint run (es : list Event) (t : WebSocketTransport)
  : WebSocketTransport * list Call :=
  match es with
  | [] => (t, [])
  | e :: es' =>
      let '(t1, tr1) := step e t in
      let '(t2, tr2) := run es' t1 in
      (t2, tr1 ++ tr2)
  end.

(** Number of connect attempts ([emscripten_websocket_new]) in a trace. *)
Definition is_connect_attempt (c : Call) : bool :=
  match c with
  | websocket_new _ => true
  | _ => false
  end.

Definition connect_attempts (tr : list Call) : nat :=
  length (filter (fun c => is_connect_attempt c = true) tr).

(** The frames handed to [emscripten_websocket_send_binary], in order. *)
Definition transmitted (tr : list Call) : list Frame :=
  omap (fun c => match c with
                 | websocket_send_binary _ d => Some d
                 | _ => None
                 end) tr.


(** The configuration of the backoff scenario: initial delay 1000 ms, cap
    8000 ms, everything else as by default. *)
Definition backoff_config : WebSocketConfig := {|
  url := url default_config;
  autoReconnect := true;
  reconnectDelayMs := 1000;
  reconnectMaxDelayMs := 8000;
  maxPendingMessages := maxPendingMessages default_config
|}.

(** The configuration of the buffering scenario: room for two pending
    frames. *)
Definition two_pending_config : WebSocketConfig := {|
  url := url default_config;
  autoReconnect := autoReconnect default_config;
  reconnectDelayMs := reconnectDelayMs default_config;
  reconnectMaxDelayMs := reconnectMaxDelayMs default_config;
  maxPendingMessages := 2
|}.

(** The default configuration with reconnection switched off. *)
Definition no_reconnect_config : WebSocketConfig := {|
  url := url default_config;
  autoReconnect := false;
  reconnectDelayMs := reconnectDelayMs default_config;
  reconnectMaxDelayMs := reconnectMaxDelayMs default_config;
  maxPendingMessages := maxPendingMessages default_config
|}.

(** The frames handed to [send] by a sequence of events, in call order. *)
Definition sent_frames (es : list Event) : list Frame :=
  omap (fun e => match e with
                 | ESend d => Some d
                 | _ => None
                 end) es.

(** The handles that exist after a trace, given those that existed before
    it.  [connect] registers the callbacks of a handle right after
    [emscripten_websocket_new] returned it, and only when it is positive, so
    [websocket_set_callbacks h] marks the creation of [h];
    [websocket_delete h] frees it. *)
Fixpoint open_handles (tr : list Call) (live : list Z) : list Z :=
  match tr with
  | [] => live
  | websocket_set_callbacks h :: tr' => open_handles tr' (live ++ [h])
  | websocket_delete h :: tr' =>
      open_handles tr' (List.filter (fun x => negb (x =? h)) live)
  | _ :: tr' => open_handles tr' live
  end.

(** The handle a transport holds in [socket_], if it is a handle. *)
Definition held (t : WebSocketTransport) : list Z :=
  if 0 <? socket_ t then [socket_ t] else [].

(** Calls of the application, as opposed to events of the browser and
    [init]. *)
Definition is_poll (e : Event) : bool :=
  match e with
  | EUpdate _ _ _ | ESend _ | ESetOnReceive _ => true
  | _ => false
  end.

(** The payloads of the binary message events of a sequence, in order. *)
Definition binary_messages (es : list Event) : list Frame :=
  omap (fun e => match e with
                 | EMessage false d => Some d
                 | _ => None
                 end) es.

(** The invocations of the receive callback in a trace: which function, with
    which bytes. *)
Definition callbacks (tr : list Call) : list (nat * Frame) :=
  omap (fun c => match c with
                 | receive_callback cb d => Some (cb, d)
                 | _ => None
                 end) tr.

Definition is_setOnReceive (e : Event) : bool :=
  match e with
  | ESetOnReceive _ => true
  | _ => false
  end.

(** A configuration whose initial delay does not fit in 31 bits. *)
Definition long_delay_config : WebSocketConfig := {|
  url := url default_config;
  autoReconnect := true;
  reconnectDelayMs := 2147483648;
  reconnectMaxDelayMs := 4294967295;
  maxPendingMessages := maxPendingMessages default_config
|}.

Definition is_open (e : Event) : bool :=
  match e with
  | EOpen => true
  | _ => false
  end.

End WebSocket.

(* ===================================================================== *)
(** * UdpTransport (POSIX branch)                                         *)
(* ===================================================================== *)

Module Udp.

(** [struct UdpConfig]; [port] is a [uint16_t], [recvBufferSize] a
    [size_t]. *)
Record UdpConfig : Type := {
  host : string;
  port : Z;
  recvBufferSize : Z
}.

(** The default member initialisers of [UdpConfig]. *)
Definition default_config : UdpConfig := {|
  host := "127.0.0.1";
  port := 9001;
  recvBufferSize := 4096
|}.

(** [struct sockaddr_in], the three members the transport writes. *)
Record sockaddr_in : Type := {
  sin_family : Z;
  sin_port : Z;
  sin_addr : Z
}.

Definition AF_INET : Z := 2.
Definition O_NONBLOCK : Z := 2048.

(** [htons] on a little-endian host: the two bytes of a [uint16_t]
    exchanged. *)
Definition htons (p : Z) : Z :=
  Z.lor (Z.shiftl (Z.land p 255) 8) (Z.land (Z.shiftr p 8) 255).

(** The data members of [class UdpTransport]. *)
Record UdpTransport : Type := {
  config_ : UdpConfig;
  onReceive_ : ReceiveCallback;
  initialized_ : bool;
  socket_ : Z;
  destAddr_ : sockaddr_in;
  recvBuffer_ : list byte
}.

(** Calls made by the transport, as they appear in the trace. *)
Inductive Call : Type :=
| sys_socket
| sys_fcntl_getfl (fd : Z)
| sys_fcntl_setfl (fd flags : Z)
| sys_bind (fd : Z)
| sys_inet_pton (h : string)
| sys_close (fd : Z)
| sys_recvfrom (fd : Z) (len : nat)
| sys_sendto (fd : Z) (data : Frame) (dest : sockaddr_in)
| receive_callback (cb : nat) (data : Frame).

Definition set_socket (v : Z) (t : UdpTransport) : UdpTransport :=
  {| config_ := config_ t; onReceive_ := onReceive_ t;
     initialized_ := initialized_ t; socket_ := v;
     destAddr_ := destAddr_ t; recvBuffer_ := recvBuffer_ t |}.

Definition set_initialized (v : bool) (t : UdpTransport) : UdpTransport :=
  {| config_ := config_ t; onReceive_ := onReceive_ t;
     initialized_ := v; socket_ := socket_ t;
     destAddr_ := destAddr_ t; recvBuffer_ := recvBuffer_ t |}.

Definition set_destAddr (v : sockaddr_in) (t : UdpTransport) : UdpTransport :=
  {| config_ := config_ t; onReceive_ := onReceive_ t;
     initialized_ := initialized_ t; socket_ := socket_ t;
     destAddr_ := v; recvBuffer_ := recvBuffer_ t |}.

Definition set_recvBuffer (v : list byte) (t : UdpTransport) : UdpTransport :=
  {| config_ := config_ t; onReceive_ := onReceive_ t;
     initialized_ := initialized_ t; socket_ := socket_ t;
     destAddr_ := destAddr_ t; recvBuffer_ := v |}.

Definition set_onReceive (v : ReceiveCallback) (t : UdpTransport) : UdpTransport :=
  {| config_ := config_ t; onReceive_ := v;
     initialized_ := initialized_ t; socket_ := socket_ t;
     destAddr_ := destAddr_ t; recvBuffer_ := recvBuffer_ t |}.

(** [UdpTransport::UdpTransport(const UdpConfig&)].  [destAddr_] has no
    initialiser: [indeterminate] stands for whatever it holds. *)
Definition new (config : UdpConfig) (indeterminate : sockaddr_in) : UdpTransport := {|
  config_ := config;
  onReceive_ := None;
  initialized_ := false;
  socket_ := -1;
  destAddr_ := indeterminate;
  recvBuffer_ := repeat x00 (Z.to_nat (recvBufferSize config))
|}.

(** [UdpTransport::cleanup]. *)
Definition cleanup (t : UdpTransport) : UdpTransport * list Call :=
  let '(t1, tr) :=
    if socket_ t >=? 0
    then (set_socket (-1) t, [sys_close (socket_ t)])
    else (t, []) in
  (set_initialized false t1, tr).

(** What the operating system answers during [init]: the results of
    [socket], of the two [fcntl] calls and of [bind], and the address
    [inet_pton] stores ([None] when it stores nothing). *)
Record InitEnv : Type := {
  socket_result : Z;
  getfl_result : Z;
  setfl_result : Z;
  bind_result : Z;
  pton_result : option Z
}.

(** [UdpTransport::init]. *)
Definition init (e : InitEnv) (t : UdpTransport)
  : UdpTransport * Result * list Call :=
  if initialized_ t then (t, ok, [])
  else
    let t1 := set_socket (socket_result e) t in
    let tr1 := [sys_socket] in
    if socket_ t1 <? 0 then (t1, err HARDWARE_INIT_FAILED, tr1)
    else
      let flags := getfl_result e in
      let tr2 := tr1 ++ [sys_fcntl_getfl (socket_ t1)] in
      if flags <? 0 then
        let '(t2, trc) := cleanup t1 in
        (t2, err HARDWARE_INIT_FAILED, tr2 ++ trc)
      else
        let tr3 := tr2 ++ [sys_fcntl_setfl (socket_ t1) (Z.lor flags O_NONBLOCK)] in
        if setfl_result e <? 0 then
          let '(t2, trc) := cleanup t1 in
          (t2, err HARDWARE_INIT_FAILED, tr3 ++ trc)
        else
          let tr4 := tr3 ++ [sys_bind (socket_ t1)] in
          if bind_result e <? 0 then
            let '(t2, trc) := cleanup t1 in
            (t2, err HARDWARE_INIT_FAILED, tr4 ++ trc)
          else
            let dest := {| sin_family := AF_INET;
                           sin_port := htons (port (config_ t1));
                           sin_addr := default 0 (pton_result e) |} in
            let t2 := set_destAddr dest t1 in
            (set_initialized true t2, ok,
             tr4 ++ [sys_inet_pton (host (config_ t2))]).

(** What a non-blocking [recvfrom] finds: nothing to return (-1, be it
    [EAGAIN] or an error), or the next queued datagram. *)
Inductive RecvOutcome : Type :=
| recv_none
| recv_datagram (d : Frame).

(** [recvfrom] on a datagram socket, as POSIX specifies it: the datagram is
    stored from the start of the buffer, bytes that do not fit are
    discarded, and the number of bytes stored is returned. *)
Definition recvfrom (o : RecvOutcome) (buf : list byte) : Z * list byte :=
  match o with
  | recv_none => (-1, buf)
  | recv_datagram d =>
      let stored := firstn (length buf) d in
      (Z.of_nat (length stored), stored ++ skipn (length stored) buf)
  end.

(** [UdpTransport::update]. *)
Definition update (o : RecvOutcome) (t : UdpTransport) : UdpTransport * list Call :=
  match initialized_ t, onReceive_ t with
  | true, Some cb =>
      let '(bytesReceived, buf) := recvfrom o (recvBuffer_ t) in
      let t1 := set_recvBuffer buf t in
      let tr := [sys_recvfrom (socket_ t) (length (recvBuffer_ t))] in
      if bytesReceived >? 0
      then (t1, tr ++ [receive_callback cb
                         (firstn (Z.to_nat bytesReceived) (recvBuffer_ t1))])
      else (t1, tr)
  | _, _ => (t, [])
  end.

(** [UdpTransport::send].  The result of [sendto] is only logged. *)
Definition send (data : Frame) (t : UdpTransport) : UdpTransport * list Call :=
  if negb (initialized_ t) then (t, [])
  else (t, [sys_sendto (socket_ t) data (destAddr_ t)]).

(** [UdpTransport::setOnReceive]. *)
Definition setOnReceive (cb : ReceiveCallback) (t : UdpTransport) : UdpTransport :=
  set_onReceive cb t.

(** [UdpTransport::isReady]. *)
Definition isReady (t : UdpTransport) : bool := initialized_ t.

(** What the standard library leaves in members that were moved from: a
    valid but unspecified string, function and vector. *)
Record MovedFrom : Type := {
  left_host : string;
  left_onReceive : ReceiveCallback;
  left_recvBuffer : list byte
}.

(** The source object of a move, once the move has run: the three movable
    members hold what the library left, [socket_] is -1 and
    [initialized_] is false. *)
Definition moved_from (r : MovedFrom) (other : UdpTransport) : UdpTransport := {|
  config_ := {| host := left_host r;
                port := port (config_ other);
                recvBufferSize := recvBufferSize (config_ other) |};
  onReceive_ := left_onReceive r;
  initialized_ := false;
  socket_ := -1;
  destAddr_ := destAddr_ other;
  recvBuffer_ := left_recvBuffer r
|}.

(** The members a move gives to its destination. *)
Definition moved_to (other : UdpTransport) : UdpTransport := {|
  config_ := config_ other;
  onReceive_ := onReceive_ other;
  initialized_ := initialized_ other;
  socket_ := socket_ other;
  destAddr_ := destAddr_ other;
  recvBuffer_ := recvBuffer_ other
|}.

(** Objects live at addresses; [this] and [&other] are keys of the
    store. *)
Abbreviation Store := (gmap nat UdpTransport).

(** [UdpTransport::UdpTransport(UdpTransport&&)]: the object under
    construction is placed at [this]. *)
Definition move_construct (r : MovedFrom) (this other : nat) (σ : Store)
  : option Store :=
  match σ !! other with
  | Some o => Some (<[other := moved_from r o]> (<[this := moved_to o]> σ))
  | None => None
  end.

(** [UdpTransport::operator=(UdpTransport&&)]. *)
Definition move_assign (r : MovedFrom) (this other : nat) (σ : Store)
  : option (Store * list Call) :=
  if decide (this = other) then
    match σ !! this with
    | Some _ => Some (σ, [])
    | None => None
    end
  else
    match σ !! this, σ !! other with
    | Some t, Some o =>
        let '(_, tr) := cleanup t in
        Some (<[other := moved_from r o]> (<[this := moved_to o]> σ), tr)
    | _, _ => None
    end.

(** Number of calls of a given kind in a trace. *)
Definition is_recvfrom (c : Call) : bool :=
  match c with
  | sys_recvfrom _ _ => true
  | _ => false
  end.

Definition is_sendto (c : Call) : bool :=
  match c with
  | sys_sendto _ _ _ => true
  | _ => false
  end.

Definition is_socket (c : Call) : bool :=
  match c with
  | sys_socket => true
  | _ => false
  end.

Definition count (p : Call -> bool) (tr : list Call) : nat :=
  length (List.filter p tr).

(** The frames the receive callback was invoked with, in order. *)
Definition delivered (tr : list Call) : list Frame :=
  omap (fun c => match c with
                 | receive_callback _ d => Some d
                 | _ => None
                 end) tr.

(** An operating system on which every call of [init] succeeds: descriptor
    3, flags [O_RDWR], and 127.0.0.1 in network byte order. *)
Definition good_env : InitEnv := {|
  socket_result := 3;
  getfl_result := 2;
  setfl_result := 0;
  bind_result := 0;
  pton_result := Some 16777343
|}.

(** An all-zero [sockaddr_in]. *)
Definition zero_addr : sockaddr_in :=
  {| sin_family := 0; sin_port := 0; sin_addr := 0 |}.

(** A datagram of ten bytes. *)
Definition ten_bytes : Frame := [x30; x31; x32; x33; x34; x35; x36; x37; x38; x39].

(** The default transport after a successful [init]. *)
Definition ready_transport : UdpTransport :=
  fst (fst (init good_env (new default_config zero_addr))).

(** What can happen to a transport between its construction and its
    destruction. *)
Inductive Event : Type :=
| EInit (e : InitEnv)
| EUpdate (o : RecvOutcome)
| ESend (data : Frame)
| ESetOnReceive (cb : ReceiveCallback).

Definition step (ev : Event) (t : UdpTransport) : UdpTransport * list Call :=
  match ev with
  | EInit e => let '(t1, _, tr) := init e t in (t1, tr)
  | EUpdate o => update o t
  | ESend data => send data t
  | ESetOnReceive cb => (setOnReceive cb t, [])
  end.

(** A sequence of events, first to last, with the concatenated trace. *)
Fixpoint run (es : list Event) (t : UdpTransport) : UdpTransport * list Call :=
  match es with
  | [] => (t, [])
  | ev :: es' =>
      let '(t1, tr1) := step ev t in
      let '(t2, tr2) := run es' t1 in
      (t2, tr1 ++ tr2)
  end.

(** The descriptors closed by a trace, in order. *)
Definition closed (tr : list Call) : list Z :=
  omap (fun c => match c with
                 | sys_close fd => Some fd
                 | _ => None
                 end) tr.

(** The frames handed to [send] by a sequence of events, in call order. *)
Definition sent_frames (es : list Event) : list Frame :=
  omap (fun ev => match ev with
                  | ESend d => Some d
                  | _ => None
                  end) es.

(** The datagrams handed to [sendto] in a trace: descriptor, bytes and
    destination, in order. *)
Definition datagrams (tr : list Call) : list (Z * Frame * sockaddr_in) :=
  omap (fun c => match c with
                 | sys_sendto fd d a => Some (fd, d, a)
                 | _ => None
                 end) tr.

(** Calls that set a socket up or tear it down, as opposed to the calls
    that move datagrams. *)
Definition is_setup (c : Call) : bool :=
  match c with
  | sys_recvfrom _ _ | sys_sendto _ _ _ | receive_callback _ _ => false
  | _ => true
  end.

End Udp.

(* ===================================================================== *)
(** * Properties of WebSocketTransport                                    *)
(* ===================================================================== *)

Section WebSocketFacts.
Import WebSocket.

Lemma u32_small (z : Z) : 0 <= z < 2 ^ 32 -> u32 z = z.
Proof. intros H. unfold u32. apply Z.mod_small; exact H. Qed.

(** ** What each operation leaves alone *)

Lemma scheduleReconnect_frame now t :
  config_ (scheduleReconnect now t) = config_ t
  /\ state_ (scheduleReconnect now t) = state_ t
  /\ socket_ (scheduleReconnect now t) = socket_ t
  /\ pendingMessages_ (scheduleReconnect now t) = pendingMessages_ t.
Proof. unfold scheduleReconnect. destruct (autoReconnect (config_ t)); simpl; auto. Qed.

Lemma connect_frame h now t :
  config_ (fst (connect h now t)) = config_ t
  /\ pendingMessages_ (fst (connect h now t)) = pendingMessages_ t.
Proof.
  unfold connect.
  destruct (0 <? socket_ t); destruct (h <=? 0); simpl;
    try (destruct (scheduleReconnect_frame now (set_socket h (set_socket 0 t)))
           as (-> & _ & _ & ->));
    try (destruct (scheduleReconnect_frame now (set_socket h t))
           as (-> & _ & _ & ->));
    auto.
Qed.

Lemma connect_trace h now t :
  connect_attempts (snd (connect h now t)) = 1%nat.
Proof.
  unfold connect.
  destruct (0 <? socket_ t); destruct (h <=? 0); reflexivity.
Qed.

Lemma flush_frame t :
  config_ (fst (flushPendingMessages t)) = config_ t
  /\ state_ (fst (flushPendingMessages t)) = state_ t
  /\ currentDelayMs_ (fst (flushPendingMessages t)) = currentDelayMs_ t
  /\ reconnectAttempts_ (fst (flushPendingMessages t)) = reconnectAttempts_ t
  /\ pendingMessages_ (fst (flushPendingMessages t)) = [].
Proof.
  unfold flushPendingMessages.
  destruct (pendingMessages_ t) eqn:E; simpl; auto.
Qed.

Lemma transmitted_send_binary sock (fs : list Frame) :
  transmitted (map (websocket_send_binary sock) fs) = fs.
Proof.
  unfold transmitted. induction fs as [|f fs IH]; simpl; [reflexivity|].
  f_equal. exact IH.
Qed.

Lemma flush_trace t :
  snd (flushPendingMessages t)
  = map (websocket_send_binary (socket_ t)) (pendingMessages_ t).
Proof.
  unfold flushPendingMessages.
  destruct (pendingMessages_ t) eqn:E; simpl; reflexivity.
Qed.

Lemma step_config e t : config_ (fst (step e t)) = config_ t.
Proof.
  destruct e; simpl.
  - unfold init. destruct supported; simpl; [|reflexivity].
    pose proof (connect_frame h now t) as [Hc _].
    destruct (connect h now t); simpl in *; exact Hc.
  - unfold update.
    destruct (bool_decide _ && _); [|reflexivity].
    destruct (_ >=? _); [|reflexivity].
    pose proof (connect_frame h now2 t) as [Hc _].
    destruct (connect h now2 t); simpl in *; exact Hc.
  - unfold send. case_bool_decide; [reflexivity|].
    destruct (_ || _); reflexivity.
  - reflexivity.
  - unfold onOpen.
    match goal with |- context [flushPendingMessages ?x] =>
      destruct (flush_frame x) as (-> & _) end.
    reflexivity.
  - unfold onMessage. destruct (negb isText), (onReceive_ t); reflexivity.
  - unfold onClose.
    destruct (scheduleReconnect_frame now (set_state Disconnected t)) as [-> _].
    reflexivity.
  - reflexivity.
Qed.

(** ** The pending buffer *)

Lemma send_not_connected data t :
  state_ t <> Connected ->
  send data t =
    (set_pendingMessages
       ((if (maxPendingMessages (config_ t) =? 0)
            || (Z.of_nat (length (pendingMessages_ t))
                <? maxPendingMessages (config_ t))
         then pendingMessages_ t
         else tail (pendingMessages_ t)) ++ [data]) t, []).
Proof.
  intros Hs. unfold send. case_bool_decide; [contradiction|].
  destruct (_ || _); reflexivity.
Qed.

Lemma tail_length {A} (l : list A) : length (tail l) = Nat.pred (length l).
Proof. destruct l; reflexivity. Qed.

Lemma send_keeps_bound data t :
  0 < maxPendingMessages (config_ t) ->
  Z.of_nat (length (pendingMessages_ t)) <= maxPendingMessages (config_ t) ->
  Z.of_nat (length (pendingMessages_ (fst (send data t))))
  <= maxPendingMessages (config_ t).
Proof.
  intros Hc Hb. unfold send. case_bool_decide; [exact Hb|].
  destruct (maxPendingMessages (config_ t) =? 0) eqn:E0; [lia|].
  destruct (_ <? _) eqn:E1; simpl; rewrite length_app; simpl.
  - apply Z.ltb_lt in E1. lia.
  - rewrite tail_length.
    destruct (pendingMessages_ t); simpl in *; lia.
Qed.

Lemma step_keeps_bound e t :
  0 < maxPendingMessages (config_ t) ->
  Z.of_nat (length (pendingMessages_ t)) <= maxPendingMessages (config_ t) ->
  Z.of_nat (length (pendingMessages_ (fst (step e t))))
  <= maxPendingMessages (config_ t).
Proof.
  intros Hc Hb. destruct e; simpl.
  - unfold init. destruct supported; simpl; [|exact Hb].
    pose proof (connect_frame h now t) as [_ Hp].
    destruct (connect h now t); simpl in *. rewrite Hp. exact Hb.
  - unfold update.
    destruct (bool_decide _ && _); [|exact Hb].
    destruct (_ >=? _); [|exact Hb].
    pose proof (connect_frame h now2 t) as [_ Hp].
    destruct (connect h now2 t); simpl in *. rewrite Hp. exact Hb.
  - apply send_keeps_bound; assumption.
  - exact Hb.
  - unfold onOpen.
    match goal with |- context [flushPendingMessages ?x] =>
      destruct (flush_frame x) as (_ & _ & _ & _ & ->) end.
    simpl. lia.
  - unfold onMessage. destruct (negb isText), (onReceive_ t); exact Hb.
  - unfold onClose.
    destruct (scheduleReconnect_frame now (set_state Disconnected t))
      as (_ & _ & _ & ->).
    exact Hb.
  - exact Hb.
Qed.

Lemma run_config es : forall t, config_ (fst (run es t)) = config_ t.
Proof.
  induction es as [|e es IH]; intros t; simpl; [reflexivity|].
  pose proof (step_config e t) as Hs.
  destruct (step e t) as [t1 tr1]. simpl in Hs.
  specialize (IH t1). destruct (run es t1) as [t2 tr2]. simpl in *.
  congruence.
Qed.

Lemma run_keeps_bound es : forall t,
  0 < maxPendingMessages (config_ t) ->
  Z.of_nat (length (pendingMessages_ t)) <= maxPendingMessages (config_ t) ->
  Z.of_nat (length (pendingMessages_ (fst (run es t))))
  <= maxPendingMessages (config_ t).
Proof.
  induction es as [|e es IH]; intros t Hc Hb; simpl; [exact Hb|].
  pose proof (step_config e t) as Hs.
  pose proof (step_keeps_bound e t Hc Hb) as Hk.
  destruct (step e t) as [t1 tr1]. simpl in Hs, Hk.
  specialize (IH t1). rewrite Hs in IH. specialize (IH Hc Hk).
  destruct (run es t1) as [t2 tr2]. simpl in *. exact IH.
Qed.

(** C3.  A send made while the state is not [Connected] transmits nothing
    and appends the frame at the end of the pending buffer; with capacity
    C = maxPendingMessages > 0 and C frames already pending, the oldest one
    is erased first, so that a buffer within C stays within C, after one
    send and after any sequence of events on a constructed transport; the
    frames kept stay in the order they were sent.  With C = 2, sending A, B
    and C to a transport that is not connected leaves exactly B, C.  With
    C = 0 the frame is appended and nothing is erased. *)
Theorem send_not_connected_bounded_fifo
  (t : WebSocketTransport) (data : Frame) (Hs : state_ t <> Connected) :
  let C := maxPendingMessages (config_ t) in
  let n := Z.of_nat (length (pendingMessages_ t)) in
  let t' := fst (send data t) in
  snd (send data t) = []
  /\ (exists kept : list Frame,
        t' = set_pendingMessages (kept ++ [data]) t
        /\ (kept = pendingMessages_ t \/ kept = tail (pendingMessages_ t)))
  /\ (C = 0 -> t' = set_pendingMessages (pendingMessages_ t ++ [data]) t)
  /\ (0 < C -> n < C ->
      t' = set_pendingMessages (pendingMessages_ t ++ [data]) t)
  /\ (0 < C -> n = C ->
      t' = set_pendingMessages (tail (pendingMessages_ t) ++ [data]) t)
  /\ (0 < C -> n <= C -> Z.of_nat (length (pendingMessages_ t')) <= C)
  /\ (forall (config : WebSocketConfig) (es : list Event),
        0 < maxPendingMessages config ->
        Z.of_nat (length (pendingMessages_ (fst (run es (new config)))))
        <= maxPendingMessages config)
  /\ (forall A B C' : Frame,
        pendingMessages_
          (fst (run [ESend A; ESend B; ESend C'] (new two_pending_config)))
        = [B; C']).
Proof.
  intros C n t'. subst C n t'.
  rewrite (send_not_connected data t Hs). simpl.
  split; [reflexivity|].
  split.
  { destruct (_ || _); eexists; (split; [reflexivity|]); [left | right];
      reflexivity. }
  split.
  { intros ->. reflexivity. }
  split.
  { intros Hc Hn. apply Z.ltb_lt in Hn. rewrite Hn, orb_true_r. reflexivity. }
  split.
  { intros Hc Hn.
    replace (maxPendingMessages (config_ t) =? 0) with false
      by (symmetry; apply Z.eqb_neq; lia).
    replace (_ <? _) with false by (symmetry; apply Z.ltb_ge; lia).
    reflexivity. }
  split.
  { intros Hc Hn.
    pose proof (send_keeps_bound data t Hc Hn) as Hk.
    rewrite (send_not_connected data t Hs) in Hk. exact Hk. }
  split.
  { intros config es Hc.
    pose proof (run_keeps_bound es (new config)) as Hr. simpl in Hr.
    apply Hr; [exact Hc | lia]. }
  intros A B C'. reflexivity.
Qed.

Lemma send_not_connected_bounded_fifo_witness :
  state_ (new two_pending_config) <> Connected
  /\ snd (send [x41] (new two_pending_config)) = []
  /\ Z.of_nat (length (pendingMessages_
                         (fst (run [ESend [x41]; ESend [x42]; ESend [x43]]
                                   (new two_pending_config))))) <= 2.
Proof.
  assert (Hs : state_ (new two_pending_config) <> Connected) by discriminate.
  split; [exact Hs|].
  destruct (send_not_connected_bounded_fifo (new two_pending_config) [x41] Hs)
    as (H1 & _ & _ & _ & _ & _ & H7 & _).
  split; [exact H1|].
  apply (H7 two_pending_config). simpl. lia.
Defined.

(** C4.  When the open event fires, whatever the state was: the state
    becomes [Connected], the backoff delay is again the configured
    [reconnectDelayMs], the attempt counter is 0, the frames transmitted
    are exactly the pending frames, oldest first, each on the current
    socket, and the pending buffer is empty afterwards. *)
Theorem onOpen_resets_and_flushes (t : WebSocketTransport) :
  let t' := fst (onOpen t) in
  state_ t' = Connected
  /\ isReady t' = true
  /\ currentDelayMs_ t' = reconnectDelayMs (config_ t)
  /\ reconnectAttempts_ t' = 0
  /\ snd (onOpen t)
     = map (websocket_send_binary (socket_ t)) (pendingMessages_ t)
  /\ transmitted (snd (onOpen t)) = pendingMessages_ t
  /\ pendingMessages_ t' = []
  /\ config_ t' = config_ t.
Proof.
  intros t'. subst t'. unfold onOpen, isReady.
  match goal with |- context [flushPendingMessages ?x] =>
    destruct (flush_frame x) as (Hc & Hst & Hd & Ha & Hp);
    pose proof (flush_trace x) as Htr end.
  rewrite Hc, Hst, Hd, Ha, Hp, Htr. simpl.
  rewrite transmitted_send_binary. repeat split.
Qed.

(** C6.  A send made while the state is [Connected] hands the frame to
    [emscripten_websocket_send_binary] on the current socket at once, and
    nothing else happens: the transport, and with it the pending buffer, is
    as before. *)
Theorem send_connected_transmits
  (t : WebSocketTransport) (data : Frame) (Hs : state_ t = Connected) :
  snd (send data t) = [websocket_send_binary (socket_ t) data]
  /\ transmitted (snd (send data t)) = [data]
  /\ fst (send data t) = t
  /\ pendingMessages_ (fst (send data t)) = pendingMessages_ t
  /\ length (pendingMessages_ (fst (send data t)))
     = length (pendingMessages_ t).
Proof.
  unfold send. case_bool_decide; [|contradiction]. simpl. repeat split.
Qed.

Lemma send_connected_transmits_witness :
  state_ (fst (onOpen (new default_config))) = Connected
  /\ fst (send [x41; x42] (fst (onOpen (new default_config))))
     = fst (onOpen (new default_config)).
Proof.
  assert (Hs : state_ (fst (onOpen (new default_config))) = Connected)
    by reflexivity.
  split; [exact Hs|].
  apply (send_connected_transmits (fst (onOpen (new default_config)))
           [x41; x42] Hs).
Defined.

(** ** Reconnection *)







(** C5, as the source has it.  A close event always makes the state
    [Disconnected].  With [autoReconnect] enabled the backoff delay becomes
    the minimum of twice the previous delay (a [uint32_t] product) and
    [reconnectMaxDelayMs], the attempt counter goes up by one (a [uint32_t]
    increment) and the time of the event is recorded; below 2^31 ms and
    2^32 - 1 attempts these are min(previous * 2, max) and previous + 1.
    With [autoReconnect] disabled nothing but the state changes: the delay
    and the counter stay as they were. *)
Theorem onClose_backoff (t : WebSocketTransport) (now : Z) :
  let t' := onClose now t in
  state_ t' = Disconnected
  /\ (autoReconnect (config_ t) = true ->
      currentDelayMs_ t'
      = Z.min (u32 (currentDelayMs_ t * 2)) (reconnectMaxDelayMs (config_ t))
      /\ reconnectAttempts_ t' = u32 (reconnectAttempts_ t + 1)
      /\ lastAttemptMs_ t' = now
      /\ (0 <= currentDelayMs_ t < 2 ^ 31 ->
          currentDelayMs_ t'
          = Z.min (currentDelayMs_ t * 2) (reconnectMaxDelayMs (config_ t)))
      /\ (0 <= reconnectAttempts_ t < 2 ^ 32 - 1 ->
          reconnectAttempts_ t' = reconnectAttempts_ t + 1))
  /\ (autoReconnect (config_ t) = false ->
      t' = set_state Disconnected t
      /\ currentDelayMs_ t' = currentDelayMs_ t
      /\ reconnectAttempts_ t' = reconnectAttempts_ t).
Proof.
  intros t'. subst t'. unfold onClose, scheduleReconnect. simpl.
  destruct (autoReconnect (config_ t)); simpl.
  - split; [reflexivity|]. split; [|discriminate].
    intros _. repeat split.
    + intros Hd. rewrite u32_small; [reflexivity | lia].
    + intros Hr. apply u32_small. lia.
  - split; [reflexivity|]. split; [discriminate|].
    intros _. repeat split.
Qed.

Lemma onClose_backoff_witness :
  autoReconnect (config_ (new backoff_config)) = true
  /\ 0 <= currentDelayMs_ (new backoff_config) < 2 ^ 31
  /\ currentDelayMs_ (onClose 7 (new backoff_config)) = Z.min (1000 * 2) 8000
  /\ autoReconnect (config_ (new no_reconnect_config)) = false
  /\ currentDelayMs_ (onClose 7 (new no_reconnect_config)) = 1000.
Proof.
  assert (Ha : autoReconnect (config_ (new backoff_config)) = true)
    by reflexivity.
  assert (Hd : 0 <= currentDelayMs_ (new backoff_config) < 2 ^ 31)
    by (simpl; lia).
  assert (Hn : autoReconnect (config_ (new no_reconnect_config)) = false)
    by reflexivity.
  destruct (onClose_backoff (new backoff_config) 7) as (_ & Hon & _).
  destruct (Hon Ha) as (_ & _ & _ & H4 & _).
  destruct (onClose_backoff (new no_reconnect_config) 7) as (_ & _ & Hoff).
  destruct (Hoff Hn) as (_ & H2 & _).
  split; [exact Ha|]. split; [exact Hd|]. split; [exact (H4 Hd)|].
  split; [exact Hn | exact H2].
Defined.

(** C5 as the specification words it, refuted: a transport configured
    without [autoReconnect] is connected (init, then the open event) and
    then closed; the state is [Disconnected], but the attempt counter is
    still 0, not 1, and the delay is still 1000, not min(2000, 30000). *)
Lemma onClose_no_autoReconnect_counterexample :
  let t := fst (run [EInit true 1 0; EOpen] (new no_reconnect_config)) in
  state_ t = Connected
  /\ state_ (onClose 50 t) = Disconnected
  /\ reconnectAttempts_ (onClose 50 t) <> reconnectAttempts_ t + 1
  /\ currentDelayMs_ (onClose 50 t)
     <> Z.min (currentDelayMs_ t * 2) (reconnectMaxDelayMs (config_ t)).
Proof. vm_compute. repeat split; discriminate. Qed.




(** C1 on the source.  With [reconnectDelayMs] = 1000 and
    [reconnectMaxDelayMs] = 8000, the transport is initialised and its
    first three connect attempts each end in a close event.  The delay
    starts at 1000 but is doubled by every failure before it is waited for:
    the delays in force before attempts 2, 3 and 4 are 2000, 4000 and 8000,
    the last one being the cap.  An update 1000 ms after the first failure
    does nothing; the one 2000 ms after it makes attempt 2. *)
Theorem backoff_scenario_delays :
  let t0 := new backoff_config in
  let t1 := fst (run [EInit true 1 0; EClose 100] t0) in
  let t2 := fst (run [EUpdate 2100 2 2100; EClose 2200] t1) in
  let t3 := fst (run [EUpdate 6200 3 6200; EClose 6300] t2) in
  currentDelayMs_ t0 = 1000
  /\ connect_attempts (snd (run [EInit true 1 0; EClose 100] t0)) = 1%nat
  /\ currentDelayMs_ t1 = 2000
  /\ update (100 + 1000) 2 1100 t1 = (t1, [])
  /\ connect_attempts (snd (update (100 + 2000) 2 2100 t1)) = 1%nat
  /\ currentDelayMs_ t2 = 4000
  /\ connect_attempts (snd (update (2200 + 4000) 3 6200 t2)) = 1%nat
  /\ currentDelayMs_ t3 = 8000
  /\ currentDelayMs_ t3 = reconnectMaxDelayMs backoff_config
  /\ reconnectAttempts_ t3 = 3
  /\ state_ t3 = Disconnected
  /\ [currentDelayMs_ t1; currentDelayMs_ t2; currentDelayMs_ t3]
     <> [1000; 2000; 4000].
Proof. vm_compute. repeat split; discriminate. Qed.

End WebSocketFacts.

(* ===================================================================== *)
(** * Properties of UdpTransport                                          *)
(* ===================================================================== *)

Section UdpFacts.
Import Udp.

Lemma moved_to_id (o : UdpTransport) : moved_to o = o.
Proof. destruct o; reflexivity. Qed.

Lemma set_recvBuffer_id (t : UdpTransport) : set_recvBuffer (recvBuffer_ t) t = t.
Proof. destruct t; reflexivity. Qed.

Lemma cleanup_uninitialized t : initialized_ (fst (cleanup t)) = false.
Proof. unfold cleanup. destruct (socket_ t >=? 0); reflexivity. Qed.

(** ** Receiving *)

Lemma recvfrom_fits (d buf : list byte) :
  (length d <= length buf)%nat ->
  recvfrom (recv_datagram d) buf
  = (Z.of_nat (length d), d ++ skipn (length d) buf).
Proof.
  intros Hl. unfold recvfrom.
  rewrite firstn_all2 by exact Hl. reflexivity.
Qed.

Lemma firstn_stored (d rest : list byte) :
  firstn (Z.to_nat (Z.of_nat (length d))) (d ++ rest) = d.
Proof.
  rewrite Nat2Z.id.
  change (firstn (length d) (d ++ rest)) with (take (length d) (d ++ rest)).
  apply take_app_length.
Qed.

Lemma update_delivers t cb d :
  initialized_ t = true ->
  onReceive_ t = Some cb ->
  d <> [] ->
  (length d <= length (recvBuffer_ t))%nat ->
  update (recv_datagram d) t
  = (set_recvBuffer (d ++ skipn (length d) (recvBuffer_ t)) t,
     [sys_recvfrom (socket_ t) (length (recvBuffer_ t));
      receive_callback cb d]).
Proof.
  intros Hi Hcb Hd Hl. unfold update. rewrite Hi, Hcb.
  rewrite (recvfrom_fits d _ Hl).
  assert (Hpos : (Z.of_nat (length d) >? 0) = true).
  { destruct d; [contradiction|]. simpl length. apply Z.gtb_lt. lia. }
  rewrite Hpos. simpl. rewrite firstn_stored. reflexivity.
Qed.

(** C7, as the source has it.  On an initialised transport that has a
    receive callback, every [update] makes exactly one [recvfrom] call.
    When nothing is queued, that call is all that happens: no callback, the
    transport unchanged.  When a datagram is queued that is not empty and
    not longer than the receive buffer, the callback is invoked once, with
    exactly the bytes of the datagram; so a datagram of ten bytes reaches
    the callback whole when [recvBufferSize] is 4096.  On a transport that
    has no receive callback, [update] makes no receive attempt at all. *)
Theorem update_polls_once
  (t : UdpTransport) (cb : nat) (o : RecvOutcome)
  (Hi : initialized_ t = true) (Hcb : onReceive_ t = Some cb) :
  count is_recvfrom (snd (update o t)) = 1%nat
  /\ (o = recv_none ->
      update o t = (t, [sys_recvfrom (socket_ t) (length (recvBuffer_ t))])
      /\ delivered (snd (update o t)) = [])
  /\ (forall d : Frame,
        o = recv_datagram d -> d <> [] ->
        (length d <= length (recvBuffer_ t))%nat ->
        snd (update o t)
        = [sys_recvfrom (socket_ t) (length (recvBuffer_ t));
           receive_callback cb d]
        /\ delivered (snd (update o t)) = [d])
  /\ (forall d : Frame, length d = 10%nat ->
        recvBufferSize (config_ (setOnReceive (Some cb) ready_transport)) = 4096
        /\ delivered (snd (update (recv_datagram d)
                                  (setOnReceive (Some cb) ready_transport)))
           = [d])
  /\ (forall (t0 : UdpTransport) (o0 : RecvOutcome),
        onReceive_ t0 = None -> update o0 t0 = (t0, [])).
Proof.
  split.
  { unfold update. rewrite Hi, Hcb.
    destruct (recvfrom o (recvBuffer_ t)) as [n buf].
    destruct (n >? 0); reflexivity. }
  split.
  { intros ->. unfold update. rewrite Hi, Hcb. simpl.
    rewrite set_recvBuffer_id. split; reflexivity. }
  split.
  { intros d -> Hd Hl. rewrite (update_delivers t cb d Hi Hcb Hd Hl).
    split; reflexivity. }
  split.
  { intros d Hd. split; [reflexivity|].
    rewrite (update_delivers _ cb d); [reflexivity | reflexivity | reflexivity | |].
    - intros ->. discriminate Hd.
    - rewrite Hd. apply Nat.leb_le. vm_compute. reflexivity. }
  intros t0 o0 H0. unfold update. rewrite H0.
  destruct (initialized_ t0); reflexivity.
Qed.

Lemma update_polls_once_witness :
  initialized_ (setOnReceive (Some 7%nat) ready_transport) = true
  /\ onReceive_ (setOnReceive (Some 7%nat) ready_transport) = Some 7%nat
  /\ delivered (snd (update (recv_datagram ten_bytes)
                            (setOnReceive (Some 7%nat) ready_transport)))
     = [ten_bytes].
Proof.
  assert (Hi : initialized_ (setOnReceive (Some 7%nat) ready_transport) = true)
    by reflexivity.
  assert (Hcb : onReceive_ (setOnReceive (Some 7%nat) ready_transport)
                = Some 7%nat) by reflexivity.
  split; [exact Hi|]. split; [exact Hcb|].
  destruct (update_polls_once (setOnReceive (Some 7%nat) ready_transport)
              7%nat (recv_datagram ten_bytes) Hi Hcb) as (_ & _ & H3 & _).
  apply (H3 ten_bytes);
    [reflexivity | discriminate | apply Nat.leb_le; vm_compute; reflexivity].
Defined.

(** C7 as the specification words it, refuted: the default transport is
    initialised, no callback is registered, a datagram of ten bytes is
    queued; [update] makes no receive attempt, not one, and the transport is
    as before. *)
Lemma update_no_callback_counterexample :
  initialized_ ready_transport = true
  /\ count is_recvfrom (snd (update (recv_datagram ten_bytes) ready_transport))
     = 0%nat
  /\ count is_recvfrom (snd (update (recv_datagram ten_bytes) ready_transport))
     <> 1%nat
  /\ update (recv_datagram ten_bytes) ready_transport = (ready_transport, []).
Proof. vm_compute. repeat split; discriminate. Qed.

(** C10.  On a transport whose [initialized_] is false, [send] and
    [update] return at once: the trace is empty (no [sendto], no [recvfrom],
    no callback) and the transport is unchanged; [isReady] is false.  That
    is the case after construction, after an [init] that returned an error,
    and for the source of a move. *)
Theorem uninitialized_is_inert (t : UdpTransport) (Hi : initialized_ t = false) :
  (forall data : Frame, send data t = (t, []))
  /\ (forall o : RecvOutcome, update o t = (t, []))
  /\ isReady t = false
  /\ (forall (config : UdpConfig) (a : sockaddr_in),
        initialized_ (new config a) = false)
  /\ (forall (e : InitEnv) (t0 : UdpTransport) (code : ErrorCode),
        snd (fst (init e t0)) = err code ->
        initialized_ (fst (fst (init e t0))) = false)
  /\ (forall (r : MovedFrom) (other : UdpTransport),
        initialized_ (moved_from r other) = false).
Proof.
  split; [intros data; unfold send; rewrite Hi; reflexivity|].
  split; [intros o; unfold update; rewrite Hi; reflexivity|].
  split; [exact Hi|].
  split; [reflexivity|].
  split; [|reflexivity].
  intros e t0 code. unfold init.
  destruct (initialized_ t0) eqn:E0; [simpl; intros Hx; discriminate Hx|].
  destruct (socket_ (set_socket (socket_result e) t0) <? 0); [intros _; exact E0|].
  destruct (getfl_result e <? 0).
  { pose proof (cleanup_uninitialized (set_socket (socket_result e) t0)) as Hc.
    destruct (cleanup _); simpl in *. intros _; exact Hc. }
  destruct (setfl_result e <? 0).
  { pose proof (cleanup_uninitialized (set_socket (socket_result e) t0)) as Hc.
    destruct (cleanup _); simpl in *. intros _; exact Hc. }
  destruct (bind_result e <? 0).
  { pose proof (cleanup_uninitialized (set_socket (socket_result e) t0)) as Hc.
    destruct (cleanup _); simpl in *. intros _; exact Hc. }
  simpl. intros Hx; discriminate Hx.
Qed.

Lemma uninitialized_is_inert_witness :
  initialized_ (new default_config zero_addr) = false
  /\ send ten_bytes (new default_config zero_addr)
     = (new default_config zero_addr, [])
  /\ update (recv_datagram ten_bytes)
            (setOnReceive (Some 7%nat) (new default_config zero_addr))
     = (setOnReceive (Some 7%nat) (new default_config zero_addr), []).
Proof.
  assert (Hi : initialized_ (new default_config zero_addr) = false)
    by reflexivity.
  assert (Hj : initialized_ (setOnReceive (Some 7%nat)
                               (new default_config zero_addr)) = false)
    by reflexivity.
  split; [exact Hi|].
  destruct (uninitialized_is_inert _ Hi) as (H1 & _).
  destruct (uninitialized_is_inert _ Hj) as (_ & H2 & _).
  split; [apply H1 | apply H2].
Defined.

(** C9.  Let [other] be an initialised transport.  After move
    construction of a new object [this] from [other], and after move
    assignment of [other] to an existing object [this] that is not [other]
    itself, the object at [this] has every member [other] had: the socket,
    [initialized_] (true), the configuration, the callback, the peer
    address and the receive buffer.  The object at [other] has socket -1
    and [initialized_] false: [isReady] is false, and [send] and [update]
    leave it unchanged with an empty trace.  Move assignment first cleans
    up the old [this]; no other object of the store changes. *)
Theorem move_transfers_socket
  (r : MovedFrom) (this other : nat) (σ : Store) (o : UdpTransport)
  (Ho : σ !! other = Some o) (Hi : initialized_ o = true) :
  (σ !! this = None ->
   exists σ' : Store,
      move_construct r this other σ = Some σ'
      /\ σ' !! this = Some o
      /\ isReady o = true
      /\ (exists s : UdpTransport,
            σ' !! other = Some s
            /\ socket_ s = -1
            /\ initialized_ s = false
            /\ isReady s = false
            /\ (forall data : Frame, send data s = (s, []))
            /\ (forall v : RecvOutcome, update v s = (s, [])))
      /\ (forall a : nat, a <> this -> a <> other -> σ' !! a = σ !! a))
  /\ (forall t : UdpTransport, σ !! this = Some t -> this <> other ->
      exists σ' : Store,
        move_assign r this other σ = Some (σ', snd (cleanup t))
        /\ σ' !! this = Some o
        /\ isReady o = true
        /\ (exists s : UdpTransport,
              σ' !! other = Some s
              /\ socket_ s = -1
              /\ initialized_ s = false
              /\ isReady s = false
              /\ (forall data : Frame, send data s = (s, []))
              /\ (forall v : RecvOutcome, update v s = (s, [])))
        /\ (forall a : nat, a <> this -> a <> other -> σ' !! a = σ !! a)).
Proof.
  assert (Hsrc : this <> other ->
             forall σ' : Store,
             σ' = <[other := moved_from r o]> (<[this := moved_to o]> σ) ->
             σ' !! this = Some o
             /\ isReady o = true
             /\ (exists s : UdpTransport,
                   σ' !! other = Some s
                   /\ socket_ s = -1
                   /\ initialized_ s = false
                   /\ isReady s = false
                   /\ (forall data : Frame, send data s = (s, []))
                   /\ (forall v : RecvOutcome, update v s = (s, [])))
             /\ (forall a : nat, a <> this -> a <> other -> σ' !! a = σ !! a)).
  { intros Hne σ' ->. split.
    { rewrite lookup_insert_ne by congruence.
      rewrite lookup_insert_eq, moved_to_id. reflexivity. }
    split; [exact Hi|].
    split.
    { exists (moved_from r o). rewrite lookup_insert_eq.
      split; [reflexivity|]. split; [reflexivity|]. split; [reflexivity|].
      split; [reflexivity|]. split; intros; reflexivity. }
    intros a Ha1 Ha2.
    rewrite lookup_insert_ne by congruence.
    rewrite lookup_insert_ne by congruence. reflexivity. }
  split.
  - intros Hfresh.
    assert (Hne : this <> other) by (intros ->; congruence).
    eexists. split; [unfold move_construct; rewrite Ho; reflexivity|].
    apply Hsrc; [exact Hne | reflexivity].
  - intros t Ht Hne. eexists. split.
    { unfold move_assign. destruct (decide (this = other)); [contradiction|].
      rewrite Ht, Ho. destruct (cleanup t). reflexivity. }
    apply Hsrc; [exact Hne | reflexivity].
Qed.

(** The guard of the assignment operator: assigning an object to itself
    leaves the store as it is and makes no call. *)
Lemma move_assign_self (r : MovedFrom) (this : nat) (σ : Store) (t : UdpTransport) :
  σ !! this = Some t -> move_assign r this this σ = Some (σ, []).
Proof.
  intros Ht. unfold move_assign.
  destruct (decide (this = this)); [|contradiction].
  rewrite Ht. reflexivity.
Qed.

Lemma move_transfers_socket_witness :
  let r := {| left_host := EmptyString; left_onReceive := None;
              left_recvBuffer := [] |} in
  let σ1 : Store := {[ 1%nat := ready_transport ]} in
  let σ2 : Store := <[ 0%nat := new default_config zero_addr ]> σ1 in
  σ1 !! 1%nat = Some ready_transport
  /\ initialized_ ready_transport = true
  /\ σ1 !! 0%nat = None
  /\ (exists σ' : Store,
        move_construct r 0 1 σ1 = Some σ'
        /\ σ' !! 0%nat = Some ready_transport)
  /\ σ2 !! 0%nat = Some (new default_config zero_addr)
  /\ 0%nat <> 1%nat
  /\ (exists σ' : Store,
        move_assign r 0 1 σ2 = Some (σ', [])
        /\ σ' !! 0%nat = Some ready_transport).
Proof.
  intros r σ1 σ2.
  assert (Ho : σ1 !! 1%nat = Some ready_transport)
    by apply lookup_singleton_eq.
  assert (Hi : initialized_ ready_transport = true) by reflexivity.
  assert (Hf : σ1 !! 0%nat = None)
    by (apply lookup_singleton_ne; discriminate).
  assert (Ho2 : σ2 !! 1%nat = Some ready_transport).
  { unfold σ2. rewrite lookup_insert_ne by discriminate. exact Ho. }
  assert (Ht2 : σ2 !! 0%nat = Some (new default_config zero_addr))
    by apply lookup_insert_eq.
  assert (Hne : 0%nat <> 1%nat) by discriminate.
  split; [exact Ho|]. split; [exact Hi|]. split; [exact Hf|].
  destruct (move_transfers_socket r 0%nat 1%nat σ1 ready_transport Ho Hi)
    as [Hc _].
  destruct (move_transfers_socket r 0%nat 1%nat σ2 ready_transport Ho2 Hi)
    as [_ Ha].
  destruct (Hc Hf) as (σ' & Hm & Hthis & _).
  destruct (Ha _ Ht2 Hne) as (σ'' & Hm2 & Hthis2 & _).
  split; [exists σ'; split; [exact Hm | exact Hthis]|].
  split; [exact Ht2|]. split; [exact Hne|].
  exists σ''. split; [exact Hm2 | exact Hthis2].
Defined.

End UdpFacts.

(* ===================================================================== *)
(** * Calling init twice                                                  *)
(* ===================================================================== *)

Section InitTwice.

Lemma udp_init_ok_initialized (e : Udp.InitEnv) (t : Udp.UdpTransport) :
  snd (fst (Udp.init e t)) = ok ->
  Udp.initialized_ (fst (fst (Udp.init e t))) = true.
Proof.
  unfold Udp.init.
  destruct (Udp.initialized_ t) eqn:E0; [intros _; exact E0|].
  destruct (Udp.socket_ (Udp.set_socket (Udp.socket_result e) t) <? 0);
    [simpl; intros Hx; discriminate Hx|].
  destruct (Udp.getfl_result e <? 0);
    [destruct (Udp.cleanup _); simpl; intros Hx; discriminate Hx|].
  destruct (Udp.setfl_result e <? 0);
    [destruct (Udp.cleanup _); simpl; intros Hx; discriminate Hx|].
  destruct (Udp.bind_result e <? 0);
    [destruct (Udp.cleanup _); simpl; intros Hx; discriminate Hx|].
  reflexivity.
Qed.

(** C2 on the source.  The datagram channel keeps the promise: on an
    initialised transport, and so after any [init] that returned success,
    [init] returns success with an empty trace and an unchanged transport.
    The WebSocket channel does not: there every [init] in a supporting
    browser makes a connect attempt, whatever the state.  A second [init]
    on the default transport deletes handle 1, creates handle 2 and
    registers its callbacks; on a connected transport it also puts the state
    back to [Connecting]. *)
Theorem second_init :
  (forall (e : Udp.InitEnv) (t : Udp.UdpTransport),
      Udp.initialized_ t = true -> Udp.init e t = (t, ok, []))
  /\ (forall (e1 e2 : Udp.InitEnv) (t : Udp.UdpTransport),
        snd (fst (Udp.init e1 t)) = ok ->
        Udp.init e2 (fst (fst (Udp.init e1 t)))
        = (fst (fst (Udp.init e1 t)), ok, []))
  /\ (forall (t : WebSocket.WebSocketTransport) (h now : Z),
        snd (fst (WebSocket.init true h now t)) = ok
        /\ WebSocket.connect_attempts (snd (WebSocket.init true h now t))
           = 1%nat)
  /\ (let t1 := fst (fst (WebSocket.init true 1 0
                             (WebSocket.new WebSocket.default_config))) in
      WebSocket.socket_ t1 = 1
      /\ snd (WebSocket.init true 2 0 t1)
         = [WebSocket.websocket_is_supported;
            WebSocket.websocket_delete 1;
            WebSocket.websocket_new (WebSocket.url WebSocket.default_config);
            WebSocket.websocket_set_callbacks 2]
      /\ WebSocket.socket_ (fst (fst (WebSocket.init true 2 0 t1))) = 2
      /\ fst (fst (WebSocket.init true 2 0 t1)) <> t1
      /\ WebSocket.state_ (fst (WebSocket.onOpen t1)) = WebSocket.Connected
      /\ WebSocket.state_
           (fst (fst (WebSocket.init true 2 0 (fst (WebSocket.onOpen t1)))))
         = WebSocket.Connecting).
Proof.
  assert (H1 : forall (e : Udp.InitEnv) (t : Udp.UdpTransport),
             Udp.initialized_ t = true -> Udp.init e t = (t, ok, [])).
  { intros e t Hi. unfold Udp.init. rewrite Hi. reflexivity. }
  split; [exact H1|].
  split.
  { intros e1 e2 t Hok. apply H1. apply udp_init_ok_initialized. exact Hok. }
  split.
  { intros t h now. unfold WebSocket.init. simpl.
    pose proof (connect_trace h now t) as Hc.
    destruct (WebSocket.connect h now t) as [t1 tr]. simpl in *.
    split; [reflexivity|]. exact Hc. }
  vm_compute. repeat split; discriminate.
Qed.

Lemma second_init_witness :
  Udp.initialized_ Udp.ready_transport = true
  /\ Udp.init Udp.good_env Udp.ready_transport = (Udp.ready_transport, ok, []).
Proof.
  assert (Hi : Udp.initialized_ Udp.ready_transport = true) by reflexivity.
  split; [exact Hi|].
  destruct second_init as [H1 _]. apply H1. exact Hi.
Defined.

End InitTwice.

(* ===================================================================== *)
(** * WebSocketTransport: handles, backoff arithmetic, frame accounting   *)
(* ===================================================================== *)

Section WebSocketHandles.
Import WebSocket.

Lemma open_handles_app (a b : list Call) : forall live,
  open_handles (a ++ b) live = open_handles b (open_handles a live).
Proof.
  induction a as [|c a IH]; intros live; [reflexivity|].
  destruct c; simpl; apply IH.
Qed.

Lemma open_handles_send_binary sock (fs : list Frame) live :
  open_handles (map (websocket_send_binary sock) fs) live = live.
Proof. induction fs as [|f fs IH]; [reflexivity | exact IH]. Qed.

Lemma scheduleReconnect_held now t : held (scheduleReconnect now t) = held t.
Proof.
  unfold held. destruct (scheduleReconnect_frame now t) as (_ & _ & -> & _).
  reflexivity.
Qed.

Lemma flush_held t : held (fst (flushPendingMessages t)) = held t.
Proof. unfold flushPendingMessages. destruct (pendingMessages_ t); reflexivity. Qed.

Lemma connect_handles h now t :
  open_handles (snd (connect h now t)) (held t) = held (fst (connect h now t)).
Proof.
  unfold connect, held at 1.
  destruct (0 <? socket_ t) eqn:Es; destruct (h <=? 0) eqn:Eh; simpl;
    rewrite ?Z.eqb_refl; simpl;
    rewrite ?scheduleReconnect_held; unfold held; simpl.
  - apply Z.leb_le in Eh.
    replace (0 <? h) with false by (symmetry; apply Z.ltb_ge; lia).
    reflexivity.
  - apply Z.leb_gt in Eh.
    replace (0 <? h) with true by (symmetry; apply Z.ltb_lt; lia).
    reflexivity.
  - apply Z.leb_le in Eh.
    replace (0 <? h) with false by (symmetry; apply Z.ltb_ge; lia).
    reflexivity.
  - apply Z.leb_gt in Eh.
    replace (0 <? h) with true by (symmetry; apply Z.ltb_lt; lia).
    reflexivity.
Qed.

Lemma step_handles e t :
  open_handles (snd (step e t)) (held t) = held (fst (step e t)).
Proof.
  destruct e; simpl.
  - unfold init. destruct supported; simpl; [|reflexivity].
    pose proof (connect_handles h now t) as Hc.
    destruct (connect h now t) as [t1 tr]; simpl in *. exact Hc.
  - unfold update.
    destruct (bool_decide _ && _); [|reflexivity].
    destruct (_ >=? _); [|reflexivity].
    pose proof (connect_handles h now2 t) as Hc.
    destruct (connect h now2 t) as [t1 tr]; simpl in *. exact Hc.
  - unfold send. case_bool_decide; [reflexivity|].
    destruct (_ || _); reflexivity.
  - reflexivity.
  - unfold onOpen. rewrite flush_trace, open_handles_send_binary, flush_held.
    reflexivity.
  - unfold onMessage. destruct (negb isText), (onReceive_ t); reflexivity.
  - unfold onClose. rewrite scheduleReconnect_held. reflexivity.
  - reflexivity.
Qed.

Lemma run_handles es : forall t,
  open_handles (snd (run es t)) (held t) = held (fst (run es t)).
Proof.
  induction es as [|e es IH]; intros t; simpl; [reflexivity|].
  pose proof (step_handles e t) as Hs.
  destruct (step e t) as [t1 tr1]. simpl in Hs.
  specialize (IH t1). destruct (run es t1) as [t2 tr2]. simpl in *.
  rewrite open_handles_app, Hs. exact IH.
Qed.

(** X1.  No handle is leaked.  After any sequence of calls and events on a
    constructed transport, the handles created and not yet deleted are
    exactly the one held in [socket_] (none when [socket_] is not
    positive), so there is never more than one; and the destructor deletes
    it, leaving none. *)
Theorem handles_never_leak (config : WebSocketConfig) (es : list Event) :
  let t := fst (run es (new config)) in
  let tr := snd (run es (new config)) in
  open_handles tr [] = held t
  /\ (length (open_handles tr []) <= 1)%nat
  /\ open_handles (tr ++ snd (destroy t)) [] = []
  /\ held (fst (destroy t)) = [].
Proof.
  intros t tr. subst t tr.
  pose proof (run_handles es (new config)) as Hr.
  change (held (new config)) with (@nil Z) in Hr.
  split; [exact Hr|].
  split.
  { rewrite Hr. unfold held. destruct (0 <? _); simpl; lia. }
  rewrite open_handles_app, Hr. unfold destroy, held.
  destruct (0 <? socket_ (fst (run es (new config)))) eqn:E; simpl.
  - rewrite Z.eqb_refl. split; reflexivity.
  - rewrite E. split; reflexivity.
Qed.

End WebSocketHandles.

Section WebSocketBackoff.
Import WebSocket.

Lemma scheduleReconnect_delay now t :
  currentDelayMs_ (scheduleReconnect now t)
  = if autoReconnect (config_ t)
    then Z.min (u32 (currentDelayMs_ t * 2)) (reconnectMaxDelayMs (config_ t))
    else currentDelayMs_ t.
Proof. unfold scheduleReconnect. destruct (autoReconnect (config_ t)); reflexivity. Qed.

Lemma scheduleReconnect_keeps_bounds now t :
  0 <= reconnectDelayMs (config_ t) ->
  reconnectMaxDelayMs (config_ t) < 2 ^ 31 ->
  reconnectDelayMs (config_ t) <= currentDelayMs_ t
                               <= reconnectMaxDelayMs (config_ t) ->
  reconnectDelayMs (config_ t) <= currentDelayMs_ (scheduleReconnect now t)
                               <= reconnectMaxDelayMs (config_ t).
Proof.
  intros H0 Hm Hb. rewrite scheduleReconnect_delay.
  destruct (autoReconnect (config_ t)); [|exact Hb].
  rewrite u32_small by lia. lia.
Qed.

Lemma connect_keeps_bounds h now t :
  0 <= reconnectDelayMs (config_ t) ->
  reconnectMaxDelayMs (config_ t) < 2 ^ 31 ->
  reconnectDelayMs (config_ t) <= currentDelayMs_ t
                               <= reconnectMaxDelayMs (config_ t) ->
  reconnectDelayMs (config_ t) <= currentDelayMs_ (fst (connect h now t))
                               <= reconnectMaxDelayMs (config_ t).
Proof.
  intros H0 Hm Hb. unfold connect.
  destruct (0 <? socket_ t); destruct (h <=? 0); simpl; try exact Hb.
  - apply (scheduleReconnect_keeps_bounds now (set_socket h (set_socket 0 t)));
      assumption.
  - apply (scheduleReconnect_keeps_bounds now (set_socket h t)); assumption.
Qed.

Lemma step_keeps_bounds e t :
  0 <= reconnectDelayMs (config_ t) <= reconnectMaxDelayMs (config_ t) ->
  reconnectMaxDelayMs (config_ t) < 2 ^ 31 ->
  reconnectDelayMs (config_ t) <= currentDelayMs_ t
                               <= reconnectMaxDelayMs (config_ t) ->
  reconnectDelayMs (config_ t) <= currentDelayMs_ (fst (step e t))
                               <= reconnectMaxDelayMs (config_ t).
Proof.
  intros [H0 H1] Hm Hb. destruct e; simpl.
  - unfold init. destruct supported; simpl; [|exact Hb].
    pose proof (connect_keeps_bounds h now t H0 Hm Hb) as Hc.
    destruct (connect h now t); simpl in *. exact Hc.
  - unfold update.
    destruct (bool_decide _ && _); [|exact Hb].
    destruct (_ >=? _); [|exact Hb].
    pose proof (connect_keeps_bounds h now2 t H0 Hm Hb) as Hc.
    destruct (connect h now2 t); simpl in *. exact Hc.
  - unfold send. case_bool_decide; [exact Hb|].
    destruct (_ || _); exact Hb.
  - exact Hb.
  - unfold onOpen.
    match goal with |- context [flushPendingMessages ?x] =>
      destruct (flush_frame x) as (_ & _ & -> & _) end.
    simpl. lia.
  - unfold onMessage. destruct (negb isText), (onReceive_ t); exact Hb.
  - unfold onClose.
    apply (scheduleReconnect_keeps_bounds now (set_state Disconnected t));
      assumption.
  - exact Hb.
Qed.

(** X2.  When the configured initial delay is at most the configured cap and
    the cap is below 2^31 ms, the backoff delay of every reachable state
    lies between the two: no sequence of calls and events takes it above
    [reconnectMaxDelayMs] or below [reconnectDelayMs]. *)
Theorem delay_within_bounds (config : WebSocketConfig) (es : list Event)
  (Hd : 0 <= reconnectDelayMs config <= reconnectMaxDelayMs config)
  (Hm : reconnectMaxDelayMs config < 2 ^ 31) :
  reconnectDelayMs config
  <= currentDelayMs_ (fst (run es (new config)))
  <= reconnectMaxDelayMs config.
Proof.
  assert (Hgen : forall es t,
             0 <= reconnectDelayMs (config_ t) <= reconnectMaxDelayMs (config_ t) ->
             reconnectMaxDelayMs (config_ t) < 2 ^ 31 ->
             reconnectDelayMs (config_ t) <= currentDelayMs_ t
                                          <= reconnectMaxDelayMs (config_ t) ->
             reconnectDelayMs (config_ t) <= currentDelayMs_ (fst (run es t))
                                          <= reconnectMaxDelayMs (config_ t)).
  { clear. induction es as [|e es IH]; intros t H0 Hm Hb; simpl; [exact Hb|].
    pose proof (step_config e t) as Hc.
    pose proof (step_keeps_bounds e t H0 Hm Hb) as Hs.
    destruct (step e t) as [t1 tr1]. simpl in Hc, Hs.
    specialize (IH t1). rewrite Hc in IH. specialize (IH H0 Hm Hs).
    destruct (run es t1) as [t2 tr2]. simpl in *. exact IH. }
  apply (Hgen es (new config)); simpl; [exact Hd | exact Hm | lia].
Qed.

Lemma delay_within_bounds_witness :
  0 <= reconnectDelayMs backoff_config <= reconnectMaxDelayMs backoff_config
  /\ reconnectMaxDelayMs backoff_config < 2 ^ 31
  /\ 1000 <= currentDelayMs_
               (fst (run [EInit true 1 0; EClose 5; EClose 6; EClose 7; EClose 8]
                         (new backoff_config))) <= 8000.
Proof.
  assert (Hd : 0 <= reconnectDelayMs backoff_config
               <= reconnectMaxDelayMs backoff_config) by (simpl; lia).
  assert (Hm : reconnectMaxDelayMs backoff_config < 2 ^ 31) by (simpl; lia).
  split; [exact Hd|]. split; [exact Hm|].
  exact (delay_within_bounds backoff_config
           [EInit true 1 0; EClose 5; EClose 6; EClose 7; EClose 8] Hd Hm).
Defined.

End WebSocketBackoff.

Section WebSocketBackoffSequence.
Import WebSocket.

Lemma run_cons_close now es t :
  run (EClose now :: es) t = run es (onClose now t).
Proof. simpl. destruct (run es (onClose now t)); reflexivity. Qed.

Lemma onClose_fields now t :
  autoReconnect (config_ t) = true ->
  config_ (onClose now t) = config_ t
  /\ state_ (onClose now t) = Disconnected
  /\ lastAttemptMs_ (onClose now t) = now
  /\ currentDelayMs_ (onClose now t)
     = Z.min (u32 (currentDelayMs_ t * 2)) (reconnectMaxDelayMs (config_ t))
  /\ reconnectAttempts_ (onClose now t) = u32 (reconnectAttempts_ t + 1).
Proof.
  intros Ha. unfold onClose, scheduleReconnect. simpl. rewrite Ha. simpl.
  repeat split.
Qed.

Lemma min_double_step (d m P : Z) :
  0 <= d -> 0 <= m -> 1 <= P ->
  Z.min (Z.min (d * 2) m * P) m = Z.min (d * (2 * P)) m.
Proof.
  intros Hd Hm HP.
  destruct (Z.le_gt_cases (d * 2) m) as [Hle | Hgt].
  - rewrite (Z.min_l (d * 2) m) by exact Hle. f_equal. ring.
  - rewrite (Z.min_r (d * 2) m) by lia.
    rewrite Z.min_r by nia. rewrite Z.min_r by nia. reflexivity.
Qed.

Lemma last_cons_default {A} (l : list A) : forall a d : A,
  List.last (a :: l) d = List.last l a.
Proof.
  induction l as [|b l IH]; intros a d; [reflexivity|].
  change (List.last (a :: b :: l) d) with (List.last (b :: l) d).
  rewrite (IH b d), (IH b a). reflexivity.
Qed.

Lemma u32_add_l (a b : Z) : u32 (u32 a + b) = u32 (a + b).
Proof. unfold u32. apply Z.add_mod_idemp_l. lia. Qed.

(** X3.  Consecutive failures, in closed form.  With [autoReconnect]
    enabled, a delay d and a cap both below 2^31 ms, k >= 1 close events in
    a row leave the state [Disconnected], the backoff delay at
    min(d * 2^k, cap), the attempt counter k higher (as a [uint32_t]) and
    [lastAttemptMs_] at the time of the last event; they make no call.  In
    particular every close event doubles the delay again, also when the
    transport is already [Disconnected]. *)
Theorem consecutive_closes
  (t : WebSocketTransport) (now : Z) (times : list Z)
  (Ha : autoReconnect (config_ t) = true)
  (Hd : 0 <= currentDelayMs_ t < 2 ^ 31)
  (Hm : 0 <= reconnectMaxDelayMs (config_ t) < 2 ^ 31) :
  let k := Z.of_nat (S (length times)) in
  let t' := fst (run (map EClose (now :: times)) t) in
  state_ t' = Disconnected
  /\ currentDelayMs_ t'
     = Z.min (currentDelayMs_ t * 2 ^ k) (reconnectMaxDelayMs (config_ t))
  /\ reconnectAttempts_ t' = u32 (reconnectAttempts_ t + k)
  /\ lastAttemptMs_ t' = List.last times now
  /\ snd (run (map EClose (now :: times)) t) = [].
Proof.
  revert t now Ha Hd Hm.
  induction times as [|n2 rest IH]; intros t now Ha Hd Hm k t'; subst k t'.
  - destruct (onClose_fields now t Ha) as (_ & Hs & Hl & Hc & Hr).
    simpl map. rewrite run_cons_close. simpl run. simpl fst. simpl snd.
    rewrite Hs, Hl, Hc, Hr. rewrite u32_small by lia.
    change (2 ^ Z.of_nat 1) with 2. repeat split.
  - destruct (onClose_fields now t Ha) as (Hcfg & Hs & Hl & Hc & Hr).
    change (map EClose (now :: n2 :: rest))
      with (EClose now :: map EClose (n2 :: rest)).
    rewrite run_cons_close.
    assert (Hd1 : 0 <= currentDelayMs_ (onClose now t) < 2 ^ 31).
    { rewrite Hc, u32_small by lia. lia. }
    assert (Ha1 : autoReconnect (config_ (onClose now t)) = true)
      by (rewrite Hcfg; exact Ha).
    assert (Hm1 : 0 <= reconnectMaxDelayMs (config_ (onClose now t)) < 2 ^ 31)
      by (rewrite Hcfg; exact Hm).
    destruct (IH (onClose now t) n2 Ha1 Hd1 Hm1) as (Is & Ic & Ir & Il & It).
    split; [exact Is|].
    split.
    { rewrite Ic, Hc, Hcfg, u32_small by lia.
      replace (2 ^ Z.of_nat (S (length (n2 :: rest))))
        with (2 * 2 ^ Z.of_nat (S (length rest))).
      - apply min_double_step; [lia | lia |].
        assert (0 < 2 ^ Z.of_nat (S (length rest)))
          by (apply Z.pow_pos_nonneg; lia).
        lia.
      - rewrite <- Z.pow_succ_r by lia. f_equal. simpl length. lia. }
    split.
    { rewrite Ir, Hr, u32_add_l. f_equal. simpl length. lia. }
    split; [|exact It].
    rewrite Il. symmetry. apply last_cons_default.
Qed.

Lemma consecutive_closes_witness :
  autoReconnect (config_ (new backoff_config)) = true
  /\ 0 <= currentDelayMs_ (new backoff_config) < 2 ^ 31
  /\ 0 <= reconnectMaxDelayMs (config_ (new backoff_config)) < 2 ^ 31
  /\ currentDelayMs_
       (fst (run (map EClose [10; 20; 30; 40; 50]) (new backoff_config)))
     = Z.min (1000 * 2 ^ 5) 8000.
Proof.
  assert (Ha : autoReconnect (config_ (new backoff_config)) = true)
    by reflexivity.
  assert (Hd : 0 <= currentDelayMs_ (new backoff_config) < 2 ^ 31)
    by (simpl; lia).
  assert (Hm : 0 <= reconnectMaxDelayMs (config_ (new backoff_config)) < 2 ^ 31)
    by (simpl; lia).
  split; [exact Ha|]. split; [exact Hd|]. split; [exact Hm|].
  destruct (consecutive_closes (new backoff_config) 10 [20; 30; 40; 50]
              Ha Hd Hm) as (_ & Hc & _).
  exact Hc.
Defined.

(** X4.  The doubling is a [uint32_t] product.  With [autoReconnect]
    enabled and a delay of 2^31 ms or more, a close event makes the delay
    min(2 * d - 2^32, cap), which is smaller than the delay before: the
    backoff shrinks instead of growing. *)
Theorem onClose_delay_wraps
  (t : WebSocketTransport) (now : Z)
  (Ha : autoReconnect (config_ t) = true)
  (Hd : 2 ^ 31 <= currentDelayMs_ t < 2 ^ 32) :
  currentDelayMs_ (onClose now t)
  = Z.min (2 * currentDelayMs_ t - 2 ^ 32) (reconnectMaxDelayMs (config_ t))
  /\ currentDelayMs_ (onClose now t) < currentDelayMs_ t.
Proof.
  destruct (onClose_fields now t Ha) as (_ & _ & _ & Hc & _).
  assert (Hw : u32 (currentDelayMs_ t * 2) = 2 * currentDelayMs_ t - 2 ^ 32).
  { unfold u32. symmetry. apply Z.mod_unique_pos with (q := 1); lia. }
  rewrite Hc, Hw. split; [reflexivity | lia].
Qed.

Lemma onClose_delay_wraps_witness :
  let t := new long_delay_config in
  autoReconnect (config_ t) = true
  /\ 2 ^ 31 <= currentDelayMs_ t < 2 ^ 32
  /\ currentDelayMs_ (onClose 9 t) = 0.
Proof.
  intros t.
  assert (Ha : autoReconnect (config_ t) = true) by reflexivity.
  assert (Hd : 2 ^ 31 <= currentDelayMs_ t < 2 ^ 32) by (simpl; lia).
  split; [exact Ha|]. split; [exact Hd|].
  destruct (onClose_delay_wraps t 9 Ha Hd) as [Hc _]. exact Hc.
Defined.

(** X5.  A connect attempt has no timeout.  From the state [Connecting], no
    sequence of [update], [send] and [setOnReceive] calls changes the state
    or the handle, makes a connect attempt or transmits a frame: only an
    event of the browser ends the attempt. *)
Theorem connecting_has_no_timeout
  (t : WebSocketTransport) (es : list Event)
  (Hs : state_ t = Connecting)
  (Hp : forallb is_poll es = true) :
  state_ (fst (run es t)) = Connecting
  /\ isReady (fst (run es t)) = false
  /\ socket_ (fst (run es t)) = socket_ t
  /\ connect_attempts (snd (run es t)) = 0%nat
  /\ transmitted (snd (run es t)) = [].
Proof.
  revert t Hs Hp. induction es as [|e es IH]; intros t Hs Hp.
  - simpl. unfold isReady. rewrite Hs. repeat split.
  - simpl in Hp. apply andb_true_iff in Hp as [He Hes].
    assert (Hstep : state_ (fst (step e t)) = Connecting
                    /\ socket_ (fst (step e t)) = socket_ t
                    /\ snd (step e t) = []).
    { destruct e; simpl in He; try discriminate; simpl.
      - unfold update. rewrite Hs. simpl. repeat split; exact Hs.
      - unfold send. rewrite Hs. simpl.
        destruct (_ || _); simpl; repeat split; exact Hs.
      - repeat split; exact Hs. }
    destruct Hstep as (H1 & H2 & H3).
    simpl. destruct (step e t) as [t1 tr1]. simpl in H1, H2, H3. subst tr1.
    destruct (IH t1 H1 Hes) as (I1 & I2 & I3 & I4 & I5).
    destruct (run es t1) as [t2 tr2]. simpl in *.
    repeat split; try assumption. congruence.
Qed.

Lemma connecting_has_no_timeout_witness :
  let t := fst (connect 1 0 (new default_config)) in
  state_ t = Connecting
  /\ forallb is_poll [EUpdate 100000 2 100000; ESend [x41]; EUpdate 4000000 3 4000000]
     = true
  /\ state_ (fst (run [EUpdate 100000 2 100000; ESend [x41];
                       EUpdate 4000000 3 4000000] t)) = Connecting.
Proof.
  intros t.
  assert (Hs : state_ t = Connecting) by reflexivity.
  assert (Hp : forallb is_poll [EUpdate 100000 2 100000; ESend [x41];
                                EUpdate 4000000 3 4000000] = true)
    by reflexivity.
  split; [exact Hs|]. split; [exact Hp|].
  destruct (connecting_has_no_timeout t _ Hs Hp) as [H1 _]. exact H1.
Defined.

(** X6.  [init] reports the support of the browser and nothing else.  It
    returns an error exactly when WebSockets are not supported, and then
    leaves the transport untouched.  When they are supported but
    [emscripten_websocket_new] returns no handle, it still returns success:
    the state and [isReady] are as before, [socket_] holds the value
    returned, no callback is registered, and the failure is handed to
    [scheduleReconnect]. *)
Theorem init_reports_support_only
  (t : WebSocketTransport) (supported : bool) (h now : Z) :
  (snd (fst (init supported h now t)) = ok <-> supported = true)
  /\ (supported = false ->
      init supported h now t = (t, err INVALID_STATE, [websocket_is_supported]))
  /\ (supported = true -> h <= 0 ->
      fst (fst (init supported h now t)) = scheduleReconnect now (set_socket h t)
      /\ state_ (fst (fst (init supported h now t))) = state_ t
      /\ isReady (fst (fst (init supported h now t))) = isReady t
      /\ socket_ (fst (fst (init supported h now t))) = h
      /\ held (fst (fst (init supported h now t))) = []
      /\ open_handles (snd (init supported h now t)) (held t) = []).
Proof.
  split.
  { unfold init. destruct supported; simpl.
    - destruct (connect h now t). simpl. split; reflexivity.
    - split; intros Hx; discriminate Hx. }
  split.
  { intros ->. reflexivity. }
  intros -> Hh.
  assert (Hc : fst (connect h now t) = scheduleReconnect now (set_socket h t)).
  { unfold connect. apply Z.leb_le in Hh.
    destruct (0 <? socket_ t); rewrite Hh; reflexivity. }
  pose proof (connect_handles h now t) as Hopen.
  unfold init. simpl. destruct (connect h now t) as [t1 tr]. simpl in *.
  subst t1.
  destruct (scheduleReconnect_frame now (set_socket h t)) as (_ & Hs & Hk & _).
  assert (Hheld : held (scheduleReconnect now (set_socket h t)) = []).
  { rewrite scheduleReconnect_held. unfold held. simpl.
    replace (0 <? h) with false by (symmetry; apply Z.ltb_ge; lia).
    reflexivity. }
  split; [reflexivity|].
  split; [exact Hs|].
  split; [unfold isReady; rewrite Hs; reflexivity|].
  split; [exact Hk|].
  split; [exact Hheld|].
  rewrite Hopen. exact Hheld.
Qed.

Lemma init_reports_support_only_witness :
  false = false
  /\ init false 1 0 (new default_config)
     = (new default_config, err INVALID_STATE, [websocket_is_supported])
  /\ true = true /\ -1 <= 0
  /\ state_ (fst (fst (init true (-1) 7 (new default_config)))) = Disconnected.
Proof.
  destruct (init_reports_support_only (new default_config) false 1 0)
    as (_ & Hu & _).
  destruct (init_reports_support_only (new default_config) true (-1) 7)
    as (_ & _ & Hf).
  assert (Hle : -1 <= 0) by lia.
  destruct (Hf eq_refl Hle) as (_ & Hs & _).
  split; [reflexivity|]. split; [exact (Hu eq_refl)|].
  split; [reflexivity|]. split; [exact Hle|]. exact Hs.
Defined.

(** X7.  A handle that cannot be created during [update] counts as a failed
    attempt.  With [autoReconnect] enabled, the state [Disconnected] and the
    delay elapsed, an [update] whose [emscripten_websocket_new] returns no
    handle stays [Disconnected], doubles the delay (up to the cap), counts
    one more attempt, and records as [lastAttemptMs_] the time [update]
    itself read, not the later one read by [scheduleReconnect]. *)
Theorem update_failed_creation
  (t : WebSocketTransport) (now h now2 : Z)
  (Ha : autoReconnect (config_ t) = true)
  (Hs : state_ t = Disconnected)
  (Hdue : currentDelayMs_ t <= u32 (now - lastAttemptMs_ t))
  (Hh : h <= 0) :
  let t' := fst (update now h now2 t) in
  state_ t' = Disconnected
  /\ socket_ t' = h
  /\ currentDelayMs_ t'
     = Z.min (u32 (currentDelayMs_ t * 2)) (reconnectMaxDelayMs (config_ t))
  /\ reconnectAttempts_ t' = u32 (reconnectAttempts_ t + 1)
  /\ lastAttemptMs_ t' = now
  /\ connect_attempts (snd (update now h now2 t)) = 1%nat.
Proof.
  intros t'. subst t'.
  pose proof (connect_trace h now2 t) as Hct.
  assert (Hc : fst (connect h now2 t) = scheduleReconnect now2 (set_socket h t)).
  { unfold connect. apply Z.leb_le in Hh.
    destruct (0 <? socket_ t); rewrite Hh; reflexivity. }
  unfold update. rewrite Hs, Ha. simpl.
  replace (u32 (now - lastAttemptMs_ t) >=? currentDelayMs_ t) with true
    by (symmetry; apply Z.geb_le; exact Hdue).
  destruct (connect h now2 t) as [t1 tr]. simpl in *. subst t1.
  unfold scheduleReconnect. simpl. rewrite Ha. simpl.
  repeat split; assumption.
Qed.

Lemma update_failed_creation_witness :
  autoReconnect (config_ (new backoff_config)) = true
  /\ state_ (new backoff_config) = Disconnected
  /\ currentDelayMs_ (new backoff_config)
     <= u32 (5000 - lastAttemptMs_ (new backoff_config))
  /\ 0 <= 0
  /\ lastAttemptMs_ (fst (update 5000 0 5003 (new backoff_config))) = 5000.
Proof.
  assert (Ha : autoReconnect (config_ (new backoff_config)) = true)
    by reflexivity.
  assert (Hs : state_ (new backoff_config) = Disconnected) by reflexivity.
  assert (Hdue : currentDelayMs_ (new backoff_config)
                 <= u32 (5000 - lastAttemptMs_ (new backoff_config)))
    by (vm_compute; discriminate).
  assert (Hh : 0 <= 0) by lia.
  split; [exact Ha|]. split; [exact Hs|]. split; [exact Hdue|].
  split; [exact Hh|].
  destruct (update_failed_creation (new backoff_config) 5000 0 5003
              Ha Hs Hdue Hh) as (_ & _ & _ & _ & Hl & _).
  exact Hl.
Defined.

End WebSocketBackoffSequence.

Section WebSocketFrames.
Import WebSocket.

Lemma transmitted_app (a b : list Call) :
  transmitted (a ++ b) = transmitted a ++ transmitted b.
Proof. unfold transmitted. apply omap_app. Qed.

Lemma sent_frames_cons (e : Event) (es : list Event) :
  sent_frames (e :: es) = sent_frames [e] ++ sent_frames es.
Proof. unfold sent_frames. simpl. destruct e; reflexivity. Qed.

Lemma connect_accounting h now t :
  pendingMessages_ (fst (connect h now t)) = pendingMessages_ t
  /\ transmitted (snd (connect h now t)) = []
  /\ callbacks (snd (connect h now t)) = []
  /\ onReceive_ (fst (connect h now t)) = onReceive_ t
  /\ (state_ (fst (connect h now t)) = Connected -> state_ t = Connected).
Proof.
  unfold connect, scheduleReconnect.
  destruct (0 <? socket_ t); destruct (h <=? 0); simpl;
    destruct (autoReconnect (config_ t)); simpl;
    repeat split; try (intros Hx; first [exact Hx | discriminate Hx]).
Qed.

(** One step either keeps every frame, or (bounded buffer only) erases the
    oldest pending one to make room for the frame sent. *)
Lemma step_accounting e t :
  (state_ t = Connected -> pendingMessages_ t = []) ->
  (state_ (fst (step e t)) = Connected -> pendingMessages_ (fst (step e t)) = [])
  /\ (transmitted (snd (step e t)) ++ pendingMessages_ (fst (step e t))
      = pendingMessages_ t ++ sent_frames [e]
      \/ (maxPendingMessages (config_ t) <> 0
          /\ exists d, sent_frames [e] = [d]
             /\ transmitted (snd (step e t)) ++ pendingMessages_ (fst (step e t))
                = tail (pendingMessages_ t) ++ [d])).
Proof.
  intros Hinv. destruct e; simpl.
  - unfold init. destruct supported; simpl.
    + destruct (connect_accounting h now t) as (Hp & Ht & _ & _ & Hs).
      destruct (connect h now t) as [t1 tr]. simpl in *.
      rewrite Hp, Ht, app_nil_r. split; [intros Hc; auto|]. left. reflexivity.
    + rewrite app_nil_r. split; [exact Hinv|]. left. reflexivity.
  - unfold update.
    destruct (bool_decide _ && _);
      [|rewrite app_nil_r; split; [exact Hinv | left; reflexivity]].
    destruct (_ >=? _);
      [|rewrite app_nil_r; split; [exact Hinv | left; reflexivity]].
    destruct (connect_accounting h now2 t) as (Hp & Ht & _ & _ & Hs).
    destruct (connect h now2 t) as [t1 tr]. simpl in *.
    rewrite Hp, Ht, app_nil_r. split; [intros Hc; auto|]. left. reflexivity.
  - unfold send. case_bool_decide as Hc; simpl.
    + rewrite (Hinv Hc). split; [intros _; reflexivity|]. left. reflexivity.
    + destruct (maxPendingMessages (config_ t) =? 0) eqn:E0; simpl.
      * split; [intros Hx; contradiction|]. left. reflexivity.
      * destruct (_ <? _); simpl.
        -- split; [intros Hx; contradiction|]. left. reflexivity.
        -- split; [intros Hx; contradiction|]. right.
           split; [apply Z.eqb_neq; exact E0|].
           exists data. split; reflexivity.
  - rewrite app_nil_r. split; [exact Hinv|]. left. reflexivity.
  - unfold onOpen. rewrite flush_trace.
    match goal with |- context [flushPendingMessages ?x] =>
      destruct (flush_frame x) as (_ & _ & _ & _ & ->) end.
    simpl. rewrite transmitted_send_binary.
    split; [intros _; reflexivity|]. left. reflexivity.
  - unfold onMessage.
    destruct (negb isText), (onReceive_ t); simpl; rewrite ?app_nil_r;
      (split; [exact Hinv | left; reflexivity]).
  - unfold onClose.
    destruct (scheduleReconnect_frame now (set_state Disconnected t))
      as (_ & Hs & _ & Hp).
    rewrite Hp, Hs. simpl. rewrite app_nil_r.
    split; [intros Hx; discriminate Hx|]. left. reflexivity.
  - rewrite app_nil_r. split; [exact Hinv|]. left. reflexivity.
Qed.

Lemma tail_sublist {A} (l : list A) : tail l `sublist_of` l.
Proof. destruct l; [reflexivity|]. simpl. apply sublist_cons. reflexivity. Qed.

Lemma run_accounting es : forall t,
  (state_ t = Connected -> pendingMessages_ t = []) ->
  (state_ (fst (run es t)) = Connected -> pendingMessages_ (fst (run es t)) = [])
  /\ transmitted (snd (run es t)) ++ pendingMessages_ (fst (run es t))
     `sublist_of` pendingMessages_ t ++ sent_frames es
  /\ (maxPendingMessages (config_ t) = 0 ->
      transmitted (snd (run es t)) ++ pendingMessages_ (fst (run es t))
      = pendingMessages_ t ++ sent_frames es).
Proof.
  induction es as [|e es IH]; intros t Hinv.
  - simpl. rewrite app_nil_r. split; [exact Hinv|]. split; reflexivity.
  - rewrite sent_frames_cons.
    destruct (step_accounting e t Hinv) as (Hinv1 & Hstep).
    pose proof (step_config e t) as Hcfg.
    simpl. destruct (step e t) as [t1 tr1]. simpl in Hinv1, Hstep, Hcfg.
    destruct (IH t1 Hinv1) as (Hinv2 & Hsub & Heq).
    destruct (run es t1) as [t2 tr2]. simpl in *.
    rewrite transmitted_app, <- app_assoc.
    split; [exact Hinv2|]. split.
    + transitivity (transmitted tr1 ++ pendingMessages_ t1 ++ sent_frames es).
      { apply sublist_app; [reflexivity | exact Hsub]. }
      rewrite !app_assoc. apply sublist_app; [|reflexivity].
      destruct Hstep as [-> | (_ & d & -> & ->)]; [reflexivity|].
      apply sublist_app; [apply tail_sublist | reflexivity].
    + intros H0. rewrite Hcfg in Heq. rewrite (Heq H0).
      destruct Hstep as [Hk | (Hne & _)]; [|contradiction].
      rewrite !app_assoc, Hk. reflexivity.
Qed.

(** X8.  With an unbounded buffer nothing is lost.  When
    [maxPendingMessages] is 0, after any sequence of calls and events on a
    constructed transport, the frames handed to
    [emscripten_websocket_send_binary] so far, followed by the frames still
    pending, are exactly the frames given to [send], in the order of the
    calls.  A connected transport has nothing pending. *)
Theorem unbounded_buffer_keeps_every_frame
  (config : WebSocketConfig) (es : list Event)
  (H0 : maxPendingMessages config = 0) :
  transmitted (snd (run es (new config)))
    ++ pendingMessages_ (fst (run es (new config)))
  = sent_frames es
  /\ (state_ (fst (run es (new config))) = Connected ->
      pendingMessages_ (fst (run es (new config))) = []).
Proof.
  assert (Hinv : state_ (new config) = Connected ->
                 pendingMessages_ (new config) = []) by reflexivity.
  destruct (run_accounting es (new config) Hinv) as (Hc & _ & Heq).
  split; [exact (Heq H0) | exact Hc].
Qed.

Lemma unbounded_buffer_keeps_every_frame_witness :
  let config := {| url := url default_config; autoReconnect := true;
                   reconnectDelayMs := 1000; reconnectMaxDelayMs := 30000;
                   maxPendingMessages := 0 |} in
  let es := [ESend [x41]; EInit true 1 0; ESend [x42]; EOpen; ESend [x43];
             EClose 9; ESend [x44]] in
  maxPendingMessages config = 0
  /\ transmitted (snd (run es (new config)))
      ++ pendingMessages_ (fst (run es (new config)))
     = [[x41]; [x42]; [x43]; [x44]].
Proof.
  intros config es.
  assert (H0 : maxPendingMessages config = 0) by reflexivity.
  split; [exact H0|].
  destruct (unbounded_buffer_keeps_every_frame config es H0) as [He _].
  exact He.
Defined.

(** X9.  Whatever the capacity, frames are neither duplicated nor
    reordered.  After any sequence of calls and events on a constructed
    transport, the frames transmitted so far followed by the frames still
    pending are the frames given to [send] with some of them left out,
    order and multiplicity kept. *)
Theorem frames_never_duplicated_or_reordered
  (config : WebSocketConfig) (es : list Event) :
  transmitted (snd (run es (new config)))
    ++ pendingMessages_ (fst (run es (new config)))
  `sublist_of` sent_frames es.
Proof.
  assert (Hinv : state_ (new config) = Connected ->
                 pendingMessages_ (new config) = []) by reflexivity.
  destruct (run_accounting es (new config) Hinv) as (_ & Hs & _).
  exact Hs.
Qed.

End WebSocketFrames.

Section WebSocketNewest.
Import WebSocket.

Lemma run_cons_send d es t :
  run (ESend d :: es) t
  = (fst (run es (fst (send d t))), snd (send d t) ++ snd (run es (fst (send d t)))).
Proof.
  simpl. destruct (send d t) as [t1 tr1]. simpl.
  destruct (run es t1); reflexivity.
Qed.

Lemma sends_keep_newest (fs : list Frame) : forall t,
  state_ t <> Connected ->
  0 < maxPendingMessages (config_ t) ->
  Z.of_nat (length (pendingMessages_ t)) <= maxPendingMessages (config_ t) ->
  run (map ESend fs) t
  = (set_pendingMessages
       (drop (length (pendingMessages_ t ++ fs)
              - Z.to_nat (maxPendingMessages (config_ t)))
             (pendingMessages_ t ++ fs)) t, []).
Proof.
  induction fs as [|d fs IH]; intros t Hs Hc Hb.
  - simpl. rewrite app_nil_r.
    replace (length (pendingMessages_ t)
             - Z.to_nat (maxPendingMessages (config_ t)))%nat with 0%nat by lia.
    rewrite drop_0. destruct t; reflexivity.
  - change (map ESend (d :: fs)) with (ESend d :: map ESend fs).
    rewrite run_cons_send, (send_not_connected d t Hs). simpl fst. simpl snd.
    destruct (maxPendingMessages (config_ t) =? 0) eqn:E0;
      [apply Z.eqb_eq in E0; lia|]. simpl orb.
    destruct (Z.of_nat (length (pendingMessages_ t))
              <? maxPendingMessages (config_ t)) eqn:E1.
    + apply Z.ltb_lt in E1.
      rewrite IH; simpl; [|exact Hs|exact Hc|rewrite length_app; simpl; lia].
      rewrite <- app_assoc. reflexivity.
    + apply Z.ltb_ge in E1.
      destruct (pendingMessages_ t) as [|p P0] eqn:EP; [simpl in *; lia|].
      rewrite IH; simpl;
        [|exact Hs|exact Hc|rewrite length_app; simpl in *; lia].
      rewrite <- app_assoc. simpl.
      replace (S (length (P0 ++ d :: fs))
               - Z.to_nat (maxPendingMessages (config_ t)))%nat
        with (S (length (P0 ++ d :: fs)
                 - Z.to_nat (maxPendingMessages (config_ t))))
        by (rewrite length_app; simpl in *; lia).
      reflexivity.
Qed.

(** X10.  A bounded buffer keeps the newest frames.  On a transport that is
    not connected, with capacity C = maxPendingMessages > 0 and at most C
    frames pending, sending the frames fs one after the other transmits
    nothing and leaves pending the last C frames of (pending ++ fs), all of
    them when there are at most C; the next open event transmits exactly
    these, oldest first. *)
Theorem pending_keeps_newest
  (t : WebSocketTransport) (fs : list Frame)
  (Hs : state_ t <> Connected)
  (Hc : 0 < maxPendingMessages (config_ t))
  (Hb : Z.of_nat (length (pendingMessages_ t)) <= maxPendingMessages (config_ t)) :
  let all := pendingMessages_ t ++ fs in
  let newest := drop (length all - Z.to_nat (maxPendingMessages (config_ t))) all in
  let t1 := fst (run (map ESend fs) t) in
  snd (run (map ESend fs) t) = []
  /\ pendingMessages_ t1 = newest
  /\ transmitted (snd (onOpen t1)) = newest
  /\ ((length all <= Z.to_nat (maxPendingMessages (config_ t)))%nat ->
      pendingMessages_ t1 = all).
Proof.
  intros all newest t1. subst all newest t1.
  rewrite (sends_keep_newest fs t Hs Hc Hb). simpl.
  split; [reflexivity|]. split; [reflexivity|].
  split.
  { unfold onOpen. rewrite flush_trace. simpl.
    apply transmitted_send_binary. }
  intros Hl.
  replace (length (pendingMessages_ t ++ fs)
           - Z.to_nat (maxPendingMessages (config_ t)))%nat with 0%nat by lia.
  apply drop_0.
Qed.

Lemma pending_keeps_newest_witness :
  state_ (new two_pending_config) <> Connected
  /\ 0 < maxPendingMessages (config_ (new two_pending_config))
  /\ Z.of_nat (length (pendingMessages_ (new two_pending_config)))
     <= maxPendingMessages (config_ (new two_pending_config))
  /\ pendingMessages_
       (fst (run (map ESend [[x41]; [x42]; [x43]; [x44]; [x45]])
                 (new two_pending_config)))
     = [[x44]; [x45]].
Proof.
  assert (Hs : state_ (new two_pending_config) <> Connected) by discriminate.
  assert (Hc : 0 < maxPendingMessages (config_ (new two_pending_config)))
    by (simpl; lia).
  assert (Hb : Z.of_nat (length (pendingMessages_ (new two_pending_config)))
               <= maxPendingMessages (config_ (new two_pending_config)))
    by (simpl; lia).
  split; [exact Hs|]. split; [exact Hc|]. split; [exact Hb|].
  destruct (pending_keeps_newest (new two_pending_config)
              [[x41]; [x42]; [x43]; [x44]; [x45]] Hs Hc Hb) as (_ & Hp & _).
  exact Hp.
Defined.

Lemma callbacks_app (a b : list Call) :
  callbacks (a ++ b) = callbacks a ++ callbacks b.
Proof. unfold callbacks. apply omap_app. Qed.

Lemma callbacks_send_binary sock (fs : list Frame) :
  callbacks (map (websocket_send_binary sock) fs) = [].
Proof. induction fs as [|f fs IH]; [reflexivity | exact IH]. Qed.

Lemma step_callbacks e t cb :
  onReceive_ t = Some cb ->
  is_setOnReceive e = false ->
  onReceive_ (fst (step e t)) = Some cb
  /\ callbacks (snd (step e t)) = map (fun d => (cb, d)) (binary_messages [e]).
Proof.
  intros Hcb He. destruct e; simpl in He; try discriminate; simpl.
  - unfold init. destruct supported; simpl; [|split; [exact Hcb | reflexivity]].
    destruct (connect_accounting h now t) as (_ & _ & Hk & Ho & _).
    destruct (connect h now t) as [t1 tr]. simpl in *.
    rewrite Ho, Hk. split; [exact Hcb | reflexivity].
  - unfold update.
    destruct (bool_decide _ && _); [|split; [exact Hcb | reflexivity]].
    destruct (_ >=? _); [|split; [exact Hcb | reflexivity]].
    destruct (connect_accounting h now2 t) as (_ & _ & Hk & Ho & _).
    destruct (connect h now2 t) as [t1 tr]. simpl in *.
    rewrite Ho, Hk. split; [exact Hcb | reflexivity].
  - unfold send. case_bool_decide; [split; [exact Hcb | reflexivity]|].
    destruct (_ || _); split; first [exact Hcb | reflexivity].
  - unfold onOpen. rewrite flush_trace, callbacks_send_binary.
    unfold flushPendingMessages. simpl.
    destruct (pendingMessages_ t); split; first [exact Hcb | reflexivity].
  - unfold onMessage. rewrite Hcb.
    destruct isText; split; first [exact Hcb | reflexivity].
  - unfold onClose, scheduleReconnect. simpl.
    destruct (autoReconnect (config_ t)); split; first [exact Hcb | reflexivity].
  - split; [exact Hcb | reflexivity].
Qed.

(** X11.  Binary messages reach the callback verbatim, text messages never.
    On a transport that has the receive callback cb, over any sequence of
    calls and events that does not register another callback, cb is invoked
    once for each binary message event, in order of arrival, with exactly
    the bytes of the message, and for nothing else. *)
Theorem binary_messages_delivered
  (t : WebSocketTransport) (cb : nat) (es : list Event)
  (Hcb : onReceive_ t = Some cb)
  (Hn : forallb (fun e => negb (is_setOnReceive e)) es = true) :
  callbacks (snd (run es t)) = map (fun d => (cb, d)) (binary_messages es)
  /\ onReceive_ (fst (run es t)) = Some cb.
Proof.
  revert t Hcb Hn. induction es as [|e es IH]; intros t Hcb Hn.
  - split; [reflexivity | exact Hcb].
  - simpl in Hn. apply andb_true_iff in Hn as [He Hes].
    apply negb_true_iff in He.
    destruct (step_callbacks e t cb Hcb He) as [Ho Hk].
    simpl. destruct (step e t) as [t1 tr1]. simpl in Ho, Hk.
    destruct (IH t1 Ho Hes) as [Ik Io].
    destruct (run es t1) as [t2 tr2]. simpl in *.
    split; [|exact Io].
    rewrite callbacks_app, Hk, Ik, <- map_app. f_equal.
    unfold binary_messages. simpl. destruct e; try reflexivity.
    destruct isText; reflexivity.
Qed.

Lemma binary_messages_delivered_witness :
  let t := setOnReceive (Some 3%nat) (new default_config) in
  let es := [EInit true 1 0; EOpen; EMessage false [x41; x42];
             EMessage true [x43]; EClose 5; EMessage false []] in
  onReceive_ t = Some 3%nat
  /\ forallb (fun e => negb (is_setOnReceive e)) es = true
  /\ callbacks (snd (run es t)) = [(3%nat, [x41; x42]); (3%nat, [])].
Proof.
  intros t es.
  assert (Hcb : onReceive_ t = Some 3%nat) by reflexivity.
  assert (Hn : forallb (fun e => negb (is_setOnReceive e)) es = true)
    by reflexivity.
  split; [exact Hcb|]. split; [exact Hn|].
  destruct (binary_messages_delivered t 3%nat es Hcb Hn) as [Hk _]. exact Hk.
Defined.

End WebSocketNewest.

(* ===================================================================== *)
(** * UdpTransport: init, cleanup, truncation, invariants                 *)
(* ===================================================================== *)

Section UdpInit.
Import Udp.

Lemma cleanup_valid (t : UdpTransport) :
  0 <= socket_ t ->
  cleanup t = (set_initialized false (set_socket (-1) t), [sys_close (socket_ t)]).
Proof.
  intros H. unfold cleanup.
  replace (socket_ t >=? 0) with true by (symmetry; apply Z.geb_le; exact H).
  reflexivity.
Qed.

Lemma cleanup_invalid (t : UdpTransport) :
  socket_ t < 0 -> cleanup t = (set_initialized false t, []).
Proof.
  intros H. unfold cleanup.
  replace (socket_ t >=? 0) with false
    by (symmetry; rewrite Z.geb_leb; apply Z.leb_gt; exact H).
  reflexivity.
Qed.

(** X12.  When [init] succeeds.  On a transport that is not initialised,
    [init] returns success exactly when [socket], both [fcntl] calls and
    [bind] all return a non-negative value.  It then has made exactly the
    calls socket, fcntl(F_GETFL), fcntl(F_SETFL, flags | O_NONBLOCK), bind
    and inet_pton, in this order, closes nothing, holds the descriptor, is
    ready, and sends to AF_INET, [htons port] and the address [inet_pton]
    stored.  The answer of [inet_pton] plays no part: with a host it cannot
    parse, [init] succeeds all the same and the address is 0. *)
Theorem init_succeeds_iff
  (e : InitEnv) (t : UdpTransport) (Hi : initialized_ t = false) :
  (snd (fst (init e t)) = ok
   <-> 0 <= socket_result e /\ 0 <= getfl_result e
       /\ 0 <= setfl_result e /\ 0 <= bind_result e)
  /\ (snd (fst (init e t)) = ok ->
      snd (init e t)
      = [sys_socket;
         sys_fcntl_getfl (socket_result e);
         sys_fcntl_setfl (socket_result e) (Z.lor (getfl_result e) O_NONBLOCK);
         sys_bind (socket_result e);
         sys_inet_pton (host (config_ t))]
      /\ closed (snd (init e t)) = []
      /\ isReady (fst (fst (init e t))) = true
      /\ socket_ (fst (fst (init e t))) = socket_result e
      /\ destAddr_ (fst (fst (init e t)))
         = {| sin_family := AF_INET;
              sin_port := htons (port (config_ t));
              sin_addr := default 0 (pton_result e) |}
      /\ config_ (fst (fst (init e t))) = config_ t
      /\ onReceive_ (fst (fst (init e t))) = onReceive_ t
      /\ recvBuffer_ (fst (fst (init e t))) = recvBuffer_ t).
Proof.
  unfold init. rewrite Hi. simpl.
  destruct (socket_result e <? 0) eqn:E1.
  { apply Z.ltb_lt in E1. simpl.
    split; [split; [intros Hx; discriminate Hx | lia]|].
    intros Hx; discriminate Hx. }
  apply Z.ltb_ge in E1.
  destruct (getfl_result e <? 0) eqn:E2.
  { apply Z.ltb_lt in E2.
    rewrite (cleanup_valid (set_socket (socket_result e) t)) by exact E1.
    simpl. split; [split; [intros Hx; discriminate Hx | lia]|].
    intros Hx; discriminate Hx. }
  apply Z.ltb_ge in E2.
  destruct (setfl_result e <? 0) eqn:E3.
  { apply Z.ltb_lt in E3.
    rewrite (cleanup_valid (set_socket (socket_result e) t)) by exact E1.
    simpl. split; [split; [intros Hx; discriminate Hx | lia]|].
    intros Hx; discriminate Hx. }
  apply Z.ltb_ge in E3.
  destruct (bind_result e <? 0) eqn:E4.
  { apply Z.ltb_lt in E4.
    rewrite (cleanup_valid (set_socket (socket_result e) t)) by exact E1.
    simpl. split; [split; [intros Hx; discriminate Hx | lia]|].
    intros Hx; discriminate Hx. }
  apply Z.ltb_ge in E4. simpl.
  split; [split; [intros _; lia | intros _; reflexivity]|].
  intros _. repeat split.
Qed.

Lemma init_succeeds_iff_witness :
  let e := {| socket_result := 3; getfl_result := 2; setfl_result := 0;
              bind_result := 0; pton_result := None |} in
  initialized_ (new default_config zero_addr) = false
  /\ snd (fst (init e (new default_config zero_addr))) = ok
  /\ sin_addr (destAddr_ (fst (fst (init e (new default_config zero_addr))))) = 0.
Proof.
  intros e.
  assert (Hi : initialized_ (new default_config zero_addr) = false)
    by reflexivity.
  split; [exact Hi|].
  destruct (init_succeeds_iff e (new default_config zero_addr) Hi)
    as [[_ Hok] Hs].
  assert (Hr : snd (fst (init e (new default_config zero_addr))) = ok)
    by (apply Hok; simpl; lia).
  split; [exact Hr|].
  destruct (Hs Hr) as (_ & _ & _ & _ & Hd & _). rewrite Hd. reflexivity.
Defined.

(** X13.  A failed [init] leaks nothing.  On a transport that is not
    initialised, when [init] returns an error, the error is
    HARDWARE_INIT_FAILED, [socket] was called once, the descriptor it
    returned (if it returned one) has been closed, once, [socket_] is
    negative, the transport is not ready, and the configuration, callback,
    peer address and receive buffer are as before. *)
Theorem init_failure_closes_socket
  (e : InitEnv) (t : UdpTransport) (code : ErrorCode)
  (Hi : initialized_ t = false)
  (Hr : snd (fst (init e t)) = err code) :
  code = HARDWARE_INIT_FAILED
  /\ count is_socket (snd (init e t)) = 1%nat
  /\ closed (snd (init e t))
     = (if 0 <=? socket_result e then [socket_result e] else [])
  /\ socket_ (fst (fst (init e t))) < 0
  /\ isReady (fst (fst (init e t))) = false
  /\ config_ (fst (fst (init e t))) = config_ t
  /\ onReceive_ (fst (fst (init e t))) = onReceive_ t
  /\ destAddr_ (fst (fst (init e t))) = destAddr_ t
  /\ recvBuffer_ (fst (fst (init e t))) = recvBuffer_ t.
Proof.
  revert Hr. unfold init. rewrite Hi. simpl.
  destruct (socket_result e <? 0) eqn:E1.
  { apply Z.ltb_lt in E1. simpl. intros Hr. injection Hr as <-.
    replace (0 <=? socket_result e) with false
      by (symmetry; apply Z.leb_gt; exact E1).
    repeat split; assumption. }
  apply Z.ltb_ge in E1.
  replace (0 <=? socket_result e) with true
    by (symmetry; apply Z.leb_le; exact E1).
  rewrite (cleanup_valid (set_socket (socket_result e) t)) by exact E1.
  destruct (getfl_result e <? 0);
    [simpl; intros Hr; injection Hr as <-; repeat split; lia|].
  destruct (setfl_result e <? 0);
    [simpl; intros Hr; injection Hr as <-; repeat split; lia|].
  destruct (bind_result e <? 0);
    [simpl; intros Hr; injection Hr as <-; repeat split; lia|].
  simpl. intros Hr; discriminate Hr.
Qed.

Lemma init_failure_closes_socket_witness :
  let e := {| socket_result := 5; getfl_result := 2; setfl_result := 0;
              bind_result := -1; pton_result := Some 16777343 |} in
  initialized_ (new default_config zero_addr) = false
  /\ snd (fst (init e (new default_config zero_addr))) = err HARDWARE_INIT_FAILED
  /\ closed (snd (init e (new default_config zero_addr))) = [5].
Proof.
  intros e.
  assert (Hi : initialized_ (new default_config zero_addr) = false)
    by reflexivity.
  assert (Hr : snd (fst (init e (new default_config zero_addr)))
               = err HARDWARE_INIT_FAILED) by reflexivity.
  split; [exact Hi|]. split; [exact Hr|].
  destruct (init_failure_closes_socket e (new default_config zero_addr)
              HARDWARE_INIT_FAILED Hi Hr) as (_ & _ & Hc & _).
  exact Hc.
Defined.

(** X14.  A descriptor is closed once.  [cleanup] closes the descriptor in
    [socket_] when it is one and leaves the transport not ready with a
    negative [socket_]; a second [cleanup] makes no call and changes
    nothing.  After a move of a transport that holds a descriptor,
    cleaning up the source closes nothing and cleaning up the destination
    closes that descriptor: destroying both objects, in either order,
    closes it exactly once. *)
Theorem cleanup_closes_once (t : UdpTransport) (r : MovedFrom) :
  closed (snd (cleanup t)) = (if socket_ t >=? 0 then [socket_ t] else [])
  /\ socket_ (fst (cleanup t)) < 0
  /\ isReady (fst (cleanup t)) = false
  /\ cleanup (fst (cleanup t)) = (fst (cleanup t), [])
  /\ cleanup (moved_from r t) = (moved_from r t, [])
  /\ (0 <= socket_ t ->
      closed (snd (cleanup (moved_from r t)) ++ snd (cleanup (moved_to t)))
      = [socket_ t]
      /\ closed (snd (cleanup (moved_to t)) ++ snd (cleanup (moved_from r t)))
         = [socket_ t]).
Proof.
  assert (Hmf : cleanup (moved_from r t) = (moved_from r t, []))
    by reflexivity.
  rewrite !Hmf.
  destruct (Z.lt_ge_cases (socket_ t) 0) as [Hneg | Hge].
  - rewrite (cleanup_invalid t Hneg). simpl.
    replace (socket_ t >=? 0) with false
      by (symmetry; rewrite Z.geb_leb; apply Z.leb_gt; exact Hneg).
    split; [reflexivity|]. split; [exact Hneg|]. split; [reflexivity|].
    split; [apply (cleanup_invalid (set_initialized false t)); exact Hneg|].
    split; [reflexivity|].
    intros Hx. lia.
  - rewrite (cleanup_valid (moved_to t)) by exact Hge.
    rewrite (cleanup_valid t Hge). simpl.
    replace (socket_ t >=? 0) with true
      by (symmetry; apply Z.geb_le; exact Hge).
    split; [reflexivity|]. split; [lia|]. split; [reflexivity|].
    split; [reflexivity|]. split; [reflexivity|].
    intros _. split; reflexivity.
Qed.

Lemma cleanup_closes_once_witness :
  let r := {| left_host := EmptyString; left_onReceive := None;
              left_recvBuffer := [] |} in
  0 <= socket_ ready_transport
  /\ closed (snd (cleanup (moved_from r ready_transport))
             ++ snd (cleanup (moved_to ready_transport))) = [3].
Proof.
  intros r.
  assert (Hs : 0 <= socket_ ready_transport) by (vm_compute; discriminate).
  split; [exact Hs|].
  destruct (cleanup_closes_once ready_transport r) as (_ & _ & _ & _ & _ & Hm).
  destruct (Hm Hs) as [H1 _]. exact H1.
Defined.

End UdpInit.

Section UdpPolling.
Import Udp.

Lemma recvfrom_length (o : RecvOutcome) (buf : list byte) :
  length (snd (recvfrom o buf)) = length buf
  /\ fst (recvfrom o buf) <= Z.of_nat (length buf).
Proof.
  destruct o as [|d]; simpl; [lia|].
  rewrite length_app, length_skipn, length_firstn. lia.
Qed.

Lemma update_unfold t cb o :
  initialized_ t = true ->
  onReceive_ t = Some cb ->
  update o t
  = (set_recvBuffer (snd (recvfrom o (recvBuffer_ t))) t,
     sys_recvfrom (socket_ t) (length (recvBuffer_ t))
     :: (if fst (recvfrom o (recvBuffer_ t)) >? 0
         then [receive_callback cb
                 (firstn (Z.to_nat (fst (recvfrom o (recvBuffer_ t))))
                         (snd (recvfrom o (recvBuffer_ t))))]
         else [])).
Proof.
  intros Hi Hcb. unfold update. rewrite Hi, Hcb.
  destruct (recvfrom o (recvBuffer_ t)) as [n buf]. simpl.
  destruct (n >? 0); reflexivity.
Qed.

(** X15.  What the callback gets of a datagram.  On an initialised
    transport with a callback and a receive buffer of n bytes, an [update]
    that finds the datagram d invokes the callback with the first n bytes
    of d: all of d when it fits, a truncated frame when it does not.  When
    these are no bytes at all (an empty datagram, or an empty buffer) the
    datagram is consumed and the callback is not invoked.  The buffer keeps
    its size. *)
Theorem update_truncates_to_buffer
  (t : UdpTransport) (cb : nat) (d : Frame)
  (Hi : initialized_ t = true) (Hcb : onReceive_ t = Some cb) :
  let got := firstn (length (recvBuffer_ t)) d in
  count is_recvfrom (snd (update (recv_datagram d) t)) = 1%nat
  /\ delivered (snd (update (recv_datagram d) t))
     = (match got with [] => [] | _ :: _ => [got] end)
  /\ ((length (recvBuffer_ t) < length d)%nat ->
      length (recvBuffer_ t) <> 0%nat ->
      delivered (snd (update (recv_datagram d) t)) = [got]
      /\ length got = length (recvBuffer_ t))
  /\ length (recvBuffer_ (fst (update (recv_datagram d) t)))
     = length (recvBuffer_ t).
Proof.
  intros got. subst got.
  rewrite (update_unfold t cb _ Hi Hcb).
  unfold recvfrom. cbv zeta. simpl fst. simpl snd.
  rewrite firstn_stored.
  assert (Hg : (length (firstn (length (recvBuffer_ t)) d)
                <= length (recvBuffer_ t))%nat)
    by (rewrite length_firstn; lia).
  assert (Hlong : (length (recvBuffer_ t) < length d)%nat ->
                  length (firstn (length (recvBuffer_ t)) d)
                  = length (recvBuffer_ t))
    by (intros Hl; rewrite length_firstn; lia).
  destruct (firstn (length (recvBuffer_ t)) d) as [|b got] eqn:Eg.
  - simpl in *. split; [reflexivity|]. split; [reflexivity|].
    split; [|reflexivity].
    intros Hl Hne. specialize (Hlong Hl). congruence.
  - replace (Z.of_nat (length (b :: got)) >? 0) with true by reflexivity.
    split; [reflexivity|]. split; [reflexivity|].
    split.
    + intros Hl _. split; [reflexivity | exact (Hlong Hl)].
    + simpl. rewrite length_app, length_skipn. simpl in Hg. lia.
Qed.

Lemma update_truncates_to_buffer_witness :
  let t := setOnReceive (Some 7%nat)
             (fst (fst (init good_env
                          (new {| host := host default_config;
                                  port := port default_config;
                                  recvBufferSize := 4 |} zero_addr)))) in
  initialized_ t = true
  /\ onReceive_ t = Some 7%nat
  /\ delivered (snd (update (recv_datagram ten_bytes) t)) = [[x30; x31; x32; x33]]
  /\ delivered (snd (update (recv_datagram []) t)) = [].
Proof.
  intros t.
  assert (Hi : initialized_ t = true) by reflexivity.
  assert (Hcb : onReceive_ t = Some 7%nat) by reflexivity.
  split; [exact Hi|]. split; [exact Hcb|].
  destruct (update_truncates_to_buffer t 7%nat ten_bytes Hi Hcb) as (_ & H1 & _).
  destruct (update_truncates_to_buffer t 7%nat [] Hi Hcb) as (_ & H2 & _).
  split; [exact H1 | exact H2].
Defined.

(** ** Invariants of a transport in use *)

Lemma init_state (e : InitEnv) (t : UdpTransport) :
  fst (fst (init e t)) = t
  \/ (0 <= socket_result e
      /\ fst (fst (init e t))
         = set_initialized true
             (set_destAddr {| sin_family := AF_INET;
                              sin_port := htons (port (config_ t));
                              sin_addr := default 0 (pton_result e) |}
                (set_socket (socket_result e) t)))
  \/ (exists s, fst (fst (init e t)) = set_initialized false (set_socket s t)).
Proof.
  unfold init. destruct (initialized_ t) eqn:Hi; [left; reflexivity|].
  right. simpl.
  destruct (socket_result e <? 0) eqn:E1.
  { right. exists (socket_result e). destruct t; simpl in *. subst.
    reflexivity. }
  apply Z.ltb_ge in E1.
  rewrite (cleanup_valid (set_socket (socket_result e) t)) by exact E1.
  destruct (getfl_result e <? 0); [right; exists (-1); reflexivity|].
  destruct (setfl_result e <? 0); [right; exists (-1); reflexivity|].
  destruct (bind_result e <? 0); [right; exists (-1); reflexivity|].
  left. split; [exact E1 | reflexivity].
Qed.

Lemma init_moves_no_data (e : InitEnv) (t : UdpTransport) :
  delivered (snd (init e t)) = [] /\ datagrams (snd (init e t)) = [].
Proof.
  unfold init. destruct (initialized_ t); [split; reflexivity|]. simpl.
  destruct (socket_result e <? 0); [split; reflexivity|].
  unfold cleanup. simpl.
  destruct (socket_result e >=? 0);
    destruct (getfl_result e <? 0); try (split; reflexivity);
    destruct (setfl_result e <? 0); try (split; reflexivity);
    destruct (bind_result e <? 0); split; reflexivity.
Qed.

Lemma Forall_delivered_app (P : Frame -> Prop) (a b : list Call) :
  Forall P (delivered a) -> Forall P (delivered b) ->
  Forall P (delivered (a ++ b)).
Proof.
  intros Ha Hb. unfold delivered in *. rewrite omap_app.
  apply Forall_app. split; assumption.
Qed.

Lemma step_invariant ev t :
  length (recvBuffer_ t) = Z.to_nat (recvBufferSize (config_ t)) ->
  (initialized_ t = true -> 0 <= socket_ t) ->
  config_ (fst (step ev t)) = config_ t
  /\ length (recvBuffer_ (fst (step ev t)))
     = Z.to_nat (recvBufferSize (config_ t))
  /\ (initialized_ (fst (step ev t)) = true -> 0 <= socket_ (fst (step ev t)))
  /\ Forall (fun f => (0 < length f <= Z.to_nat (recvBufferSize (config_ t)))%nat)
            (delivered (snd (step ev t))).
Proof.
  intros Hlen Hsock. destruct ev as [e | o | data | cb]; simpl.
  - destruct (init_moves_no_data e t) as [Hd _].
    pose proof (init_state e t) as Hst.
    destruct (init e t) as [[t1 res] tr]. simpl in *. rewrite Hd.
    destruct Hst as [-> | [(Hs & ->) | [s ->]]]; simpl.
    + split; [reflexivity|]. split; [exact Hlen|].
      split; [exact Hsock | constructor].
    + split; [reflexivity|]. split; [exact Hlen|].
      split; [intros _; exact Hs | constructor].
    + split; [reflexivity|]. split; [exact Hlen|].
      split; [intros Hx; discriminate Hx | constructor].
  - unfold update.
    destruct (initialized_ t) eqn:Hi;
      [|simpl; split; [reflexivity|]; split; [exact Hlen|];
        split; [rewrite Hi; intros Hx; discriminate Hx | constructor]].
    destruct (onReceive_ t) as [cb|];
      [|simpl; split; [reflexivity|]; split; [exact Hlen|];
        split; [intros _; apply Hsock; reflexivity | constructor]].
    pose proof (recvfrom_length o (recvBuffer_ t)) as [Hl Hn].
    destruct (recvfrom o (recvBuffer_ t)) as [n buf]. simpl in Hl, Hn.
    destruct (n >? 0) eqn:En; simpl.
    + apply Z.gtb_lt in En.
      split; [reflexivity|]. split; [congruence|]. split; [auto|].
      constructor; [|constructor].
      rewrite length_firstn. lia.
    + split; [reflexivity|]. split; [congruence|]. split; [auto|]. constructor.
  - unfold send. destruct (initialized_ t) eqn:Hi; simpl.
    + split; [reflexivity|]. split; [exact Hlen|].
      split; [intros _; apply Hsock; reflexivity | constructor].
    + split; [reflexivity|]. split; [exact Hlen|].
      split; [rewrite Hi; intros Hx; discriminate Hx | constructor].
  - split; [reflexivity|]. split; [exact Hlen|].
    split; [exact Hsock | constructor].
Qed.

(** X16.  Invariants of a transport in use.  After any sequence of [init],
    [update], [send] and [setOnReceive] calls on a constructed transport,
    whatever the operating system answers: the configuration is the one
    given at construction, the receive buffer has [recvBufferSize] bytes, a
    ready transport holds a non-negative descriptor, and every frame the
    callback was invoked with has at least one byte and at most
    [recvBufferSize]. *)
Theorem transport_invariants
  (config : UdpConfig) (a : sockaddr_in) (es : list Event) :
  let t := fst (run es (new config a)) in
  config_ t = config
  /\ length (recvBuffer_ t) = Z.to_nat (recvBufferSize config)
  /\ (isReady t = true -> 0 <= socket_ t)
  /\ Forall (fun f => (0 < length f <= Z.to_nat (recvBufferSize config))%nat)
            (delivered (snd (run es (new config a)))).
Proof.
  assert (Hgen : forall es t,
    length (recvBuffer_ t) = Z.to_nat (recvBufferSize (config_ t)) ->
    (initialized_ t = true -> 0 <= socket_ t) ->
    config_ (fst (run es t)) = config_ t
    /\ length (recvBuffer_ (fst (run es t)))
       = Z.to_nat (recvBufferSize (config_ t))
    /\ (initialized_ (fst (run es t)) = true -> 0 <= socket_ (fst (run es t)))
    /\ Forall (fun f => (0 < length f <= Z.to_nat (recvBufferSize (config_ t)))%nat)
              (delivered (snd (run es t)))).
  { clear. induction es as [|ev es IH]; intros t Hl Hs.
    - simpl. repeat split; try assumption. constructor.
    - destruct (step_invariant ev t Hl Hs) as (Hc1 & Hl1 & Hs1 & Hd1).
      simpl. destruct (step ev t) as [t1 tr1]. simpl in Hc1, Hl1, Hs1, Hd1.
      specialize (IH t1). rewrite Hc1 in IH.
      destruct (IH Hl1 Hs1) as (Hc2 & Hl2 & Hs2 & Hd2).
      destruct (run es t1) as [t2 tr2]. simpl in *.
      split; [exact Hc2|]. split; [exact Hl2|]. split; [exact Hs2|].
      apply Forall_delivered_app; assumption. }
  intros t. subst t.
  apply (Hgen es (new config a)).
  - simpl. apply repeat_length.
  - simpl. intros Hx; discriminate Hx.
Qed.

End UdpPolling.

Section UdpReady.
Import Udp.

Lemma transport_invariants_witness :
  isReady (fst (run [EInit good_env; EUpdate (recv_datagram ten_bytes)]
                    (new default_config zero_addr))) = true
  /\ 0 <= socket_ (fst (run [EInit good_env; EUpdate (recv_datagram ten_bytes)]
                            (new default_config zero_addr))).
Proof.
  assert (Hr : isReady (fst (run [EInit good_env;
                                  EUpdate (recv_datagram ten_bytes)]
                                 (new default_config zero_addr))) = true)
    by reflexivity.
  split; [exact Hr|].
  destruct (transport_invariants default_config zero_addr
              [EInit good_env; EUpdate (recv_datagram ten_bytes)])
    as (_ & _ & Hs & _).
  exact (Hs Hr).
Defined.

Lemma count_app (p : Call -> bool) (a b : list Call) :
  count p (a ++ b) = (count p a + count p b)%nat.
Proof. unfold count. rewrite List.filter_app, length_app. reflexivity. Qed.

Lemma datagrams_app (a b : list Call) :
  datagrams (a ++ b) = datagrams a ++ datagrams b.
Proof. unfold datagrams. apply omap_app. Qed.

Lemma step_ready ev t :
  initialized_ t = true ->
  initialized_ (fst (step ev t)) = true
  /\ socket_ (fst (step ev t)) = socket_ t
  /\ destAddr_ (fst (step ev t)) = destAddr_ t
  /\ count is_setup (snd (step ev t)) = 0%nat
  /\ datagrams (snd (step ev t))
     = map (fun d => (socket_ t, d, destAddr_ t)) (sent_frames [ev]).
Proof.
  intros Hi. destruct ev as [e | o | data | cb]; simpl.
  - unfold init. rewrite Hi. simpl. repeat split. exact Hi.
  - unfold update. rewrite Hi.
    destruct (onReceive_ t) as [cb|]; [|simpl; repeat split; exact Hi].
    destruct (recvfrom o (recvBuffer_ t)) as [n buf].
    destruct (n >? 0); simpl; repeat split; exact Hi.
  - unfold send. rewrite Hi. simpl. repeat split. exact Hi.
  - repeat split. exact Hi.
Qed.

Lemma run_ready es : forall t,
  initialized_ t = true ->
  initialized_ (fst (run es t)) = true
  /\ socket_ (fst (run es t)) = socket_ t
  /\ destAddr_ (fst (run es t)) = destAddr_ t
  /\ count is_setup (snd (run es t)) = 0%nat
  /\ datagrams (snd (run es t))
     = map (fun d => (socket_ t, d, destAddr_ t)) (sent_frames es).
Proof.
  induction es as [|ev es IH]; intros t Hi.
  - simpl. repeat split. exact Hi.
  - destruct (step_ready ev t Hi) as (H1 & H2 & H3 & H4 & H5).
    simpl. destruct (step ev t) as [t1 tr1]. simpl in H1, H2, H3, H4, H5.
    destruct (IH t1 H1) as (I1 & I2 & I3 & I4 & I5).
    destruct (run es t1) as [t2 tr2]. simpl in *.
    split; [exact I1|]. split; [congruence|]. split; [congruence|].
    split; [rewrite count_app, H4, I4; reflexivity|].
    rewrite datagrams_app, H5, I5, H2, H3, <- map_app. f_equal.
    unfold sent_frames. simpl. destruct ev; reflexivity.
Qed.

(** X17.  Ready until torn down.  Once a transport is initialised, no
    sequence of [init], [update], [send] and [setOnReceive] calls, whatever
    the operating system answers, makes it not ready, changes its
    descriptor or its peer address, or creates, configures, binds or closes
    a socket: the only calls left are [recvfrom], [sendto] and the
    callback. *)
Theorem ready_until_teardown
  (t : UdpTransport) (es : list Event) (Hi : initialized_ t = true) :
  isReady (fst (run es t)) = true
  /\ socket_ (fst (run es t)) = socket_ t
  /\ destAddr_ (fst (run es t)) = destAddr_ t
  /\ count is_setup (snd (run es t)) = 0%nat.
Proof.
  destruct (run_ready es t Hi) as (H1 & H2 & H3 & H4 & _).
  split; [exact H1|]. split; [exact H2|]. split; [exact H3 | exact H4].
Qed.

Lemma ready_until_teardown_witness :
  let e := {| socket_result := -1; getfl_result := -1; setfl_result := -1;
              bind_result := -1; pton_result := None |} in
  let es := [EInit e; EUpdate recv_none; ESend ten_bytes; EInit good_env] in
  initialized_ ready_transport = true
  /\ isReady (fst (run es ready_transport)) = true
  /\ socket_ (fst (run es ready_transport)) = 3.
Proof.
  intros e es.
  assert (Hi : initialized_ ready_transport = true) by reflexivity.
  split; [exact Hi|].
  destruct (ready_until_teardown ready_transport es Hi) as (H1 & H2 & _).
  split; [exact H1 | exact H2].
Defined.

(** X18.  One datagram for each frame.  On an initialised transport, over
    any sequence of [init], [update], [send] and [setOnReceive] calls, the
    [sendto] calls made are, in order, one for each [send], each with
    exactly the bytes given, on the descriptor of the transport and to its
    peer address (an empty frame is sent as an empty datagram). *)
Theorem one_datagram_per_send
  (t : UdpTransport) (es : list Event) (Hi : initialized_ t = true) :
  datagrams (snd (run es t))
  = map (fun d => (socket_ t, d, destAddr_ t)) (sent_frames es)
  /\ length (datagrams (snd (run es t))) = length (sent_frames es).
Proof.
  destruct (run_ready es t Hi) as (_ & _ & _ & _ & H5).
  split; [exact H5|]. rewrite H5. apply length_map.
Qed.

Lemma one_datagram_per_send_witness :
  let es := [ESend ten_bytes; EUpdate recv_none; ESend []; ESend [x41]] in
  initialized_ ready_transport = true
  /\ datagrams (snd (run es ready_transport))
     = [(3, ten_bytes, destAddr_ ready_transport);
        (3, [], destAddr_ ready_transport);
        (3, [x41], destAddr_ ready_transport)].
Proof.
  intros es.
  assert (Hi : initialized_ ready_transport = true) by reflexivity.
  split; [exact Hi|].
  destruct (one_datagram_per_send ready_transport es Hi) as [H1 _]. exact H1.
Defined.

End UdpReady.

Section WebSocketClock.
Import WebSocket.

Lemma connect_not_connected h now t :
  state_ t <> Connected -> state_ (fst (connect h now t)) <> Connected.
Proof.
  intros Hs Hc.
  destruct (connect_accounting h now t) as (_ & _ & _ & _ & Hk). auto.
Qed.

Lemma step_before_open e t :
  state_ t <> Connected ->
  is_open e = false ->
  state_ (fst (step e t)) <> Connected /\ transmitted (snd (step e t)) = [].
Proof.
  intros Hs He. destruct e; simpl in He; try discriminate; simpl.
  - unfold init. destruct supported; simpl; [|split; [exact Hs | reflexivity]].
    pose proof (connect_not_connected h now t Hs) as Hn.
    destruct (connect_accounting h now t) as (_ & Ht & _).
    destruct (connect h now t) as [t1 tr]. simpl in *.
    split; [exact Hn | exact Ht].
  - unfold update.
    destruct (bool_decide _ && _); [|split; [exact Hs | reflexivity]].
    destruct (_ >=? _); [|split; [exact Hs | reflexivity]].
    pose proof (connect_not_connected h now2 t Hs) as Hn.
    destruct (connect_accounting h now2 t) as (_ & Ht & _).
    destruct (connect h now2 t) as [t1 tr]. simpl in *.
    split; [exact Hn | exact Ht].
  - unfold send. case_bool_decide; [contradiction|].
    destruct (_ || _); split; first [exact Hs | reflexivity].
  - split; [exact Hs | reflexivity].
  - unfold onMessage.
    destruct (negb isText), (onReceive_ t); split; first [exact Hs | reflexivity].
  - unfold onClose.
    destruct (scheduleReconnect_frame now (set_state Disconnected t))
      as (_ & -> & _).
    split; [discriminate | reflexivity].
  - split; [exact Hs | reflexivity].
Qed.

(** X19.  Nothing is transmitted before the connection opens.  From a state
    other than [Connected], in particular from construction, over any
    sequence of calls and events without an open event the transport never
    becomes ready and hands no frame to
    [emscripten_websocket_send_binary]: only the open event makes it
    [Connected]. *)
Theorem nothing_sent_before_open
  (t : WebSocketTransport) (es : list Event)
  (Hs : state_ t <> Connected)
  (Hn : forallb (fun e => negb (is_open e)) es = true) :
  isReady (fst (run es t)) = false
  /\ transmitted (snd (run es t)) = [].
Proof.
  assert (Hgen : state_ (fst (run es t)) <> Connected
                 /\ transmitted (snd (run es t)) = []).
  { revert t Hs Hn. induction es as [|e es IH]; intros t Hs Hn.
    - split; [exact Hs | reflexivity].
    - simpl in Hn. apply andb_true_iff in Hn as [He Hes].
      apply negb_true_iff in He.
      destruct (step_before_open e t Hs He) as [H1 H2].
      simpl. destruct (step e t) as [t1 tr1]. simpl in H1, H2.
      destruct (IH t1 H1 Hes) as [I1 I2].
      destruct (run es t1) as [t2 tr2]. simpl in *.
      split; [exact I1|]. rewrite transmitted_app, H2, I2. reflexivity. }
  destruct Hgen as [H1 H2]. split; [|exact H2].
  unfold isReady. apply bool_decide_eq_false. exact H1.
Qed.

Lemma nothing_sent_before_open_witness :
  let es := [ESend [x41]; EInit true 1 0; ESend [x42]; EUpdate 70000 2 70000;
             EClose 70001; EUpdate 90000 3 90000; ESend [x43]] in
  state_ (new default_config) <> Connected
  /\ forallb (fun e => negb (is_open e)) es = true
  /\ transmitted (snd (run es (new default_config))) = [].
Proof.
  intros es.
  assert (Hs : state_ (new default_config) <> Connected) by discriminate.
  assert (Hn : forallb (fun e => negb (is_open e)) es = true) by reflexivity.
  split; [exact Hs|]. split; [exact Hn|].
  destruct (nothing_sent_before_open (new default_config) es Hs Hn) as [_ H2].
  exact H2.
Defined.

Lemma u32_elapsed (l e : Z) : 0 <= e < 2 ^ 32 -> u32 (u32 (l + e) - l) = e.
Proof.
  intros He. unfold u32.
  rewrite Zminus_mod_idemp_l.
  replace (l + e - l) with e by lia.
  apply Z.mod_small. exact He.
Qed.

(** X20.  The reconnect timer survives the wrap-around of the clock.  Let
    the millisecond clock have advanced by e < 2^32 since the value stored
    in [lastAttemptMs_], wrapping past 2^32 or not.  With [autoReconnect]
    enabled and the state [Disconnected], [update] makes a connect attempt
    exactly when e is at least the current delay. *)
Theorem reconnect_timer_wraps
  (t : WebSocketTransport) (e h now2 : Z)
  (Ha : autoReconnect (config_ t) = true)
  (Hs : state_ t = Disconnected)
  (He : 0 <= e < 2 ^ 32) :
  let now := u32 (lastAttemptMs_ t + e) in
  u32 (now - lastAttemptMs_ t) = e
  /\ (connect_attempts (snd (update now h now2 t)) = 1%nat
      <-> currentDelayMs_ t <= e)
  /\ (e < currentDelayMs_ t -> update now h now2 t = (t, [])).
Proof.
  intros now. subst now.
  pose proof (u32_elapsed (lastAttemptMs_ t) e He) as Hel.
  split; [exact Hel|].
  unfold update. rewrite Hs, Ha, Hel. simpl.
  pose proof (connect_trace h now2 t) as Hct.
  destruct (e >=? currentDelayMs_ t) eqn:Eg.
  - apply Z.geb_le in Eg.
    destruct (connect h now2 t) as [t1 tr]. simpl in *.
    split; [split; [intros _; exact Eg | intros _; exact Hct]|].
    intros Hlt. lia.
  - assert (Hlt : e < currentDelayMs_ t).
    { destruct (Z.lt_ge_cases e (currentDelayMs_ t)) as [Hx | Hx]; [exact Hx|].
      apply Z.geb_le in Hx. congruence. }
    split; [split; [intros Hx; discriminate Hx | intros Hx; lia]|].
    intros _. reflexivity.
Qed.

Lemma reconnect_timer_wraps_witness :
  let t := onClose 4294967000 (new default_config) in
  autoReconnect (config_ t) = true
  /\ state_ t = Disconnected
  /\ 0 <= 2000 < 2 ^ 32
  /\ u32 (lastAttemptMs_ t + 2000) = 1704
  /\ connect_attempts (snd (update 1704 2 1704 t)) = 1%nat.
Proof.
  intros t.
  assert (Ha : autoReconnect (config_ t) = true) by reflexivity.
  assert (Hs : state_ t = Disconnected) by reflexivity.
  assert (He : 0 <= 2000 < 2 ^ 32) by lia.
  split; [exact Ha|]. split; [exact Hs|]. split; [exact He|].
  split; [reflexivity|].
  destruct (reconnect_timer_wraps t 2000 2 1704 Ha Hs He) as (_ & [_ Hc] & _).
  apply Hc. vm_compute. discriminate.
Defined.

End WebSocketClock.
